(** * Silver Tier AI Employee: the MCP tool server and the approval handler

    A shallow embedding of [mcp_server/mcp_server.js] (the tool handlers and
    the tool-call dispatcher) and of the Approval Handler Skill (the
    procedure that polls [/Pending_Approval/], executes approved tasks
    through the MCP server and files the outcome), with the properties the
    specification states about them.

    Conventions.
    - A JavaScript string is the list of its UTF-16 code units, so that
      [length] is the [.length] of the source.
    - A JavaScript object built by the server is an association list from
      property names to values, in the order the source writes them.
    - An [async] function is a computation over the record of external calls
      made so far, ending normally or by throwing.
    - Diagnostics written with [console.error] are not part of any result and
      are left out.
    - The engine's [String.prototype.toUpperCase] and [parseInt] are
      parameters of the development; [Samples] gives ASCII instances to run
      it on. *)

From Stdlib Require Import String Ascii NArith Bool Arith Lia DecimalString List.
Import ListNotations.

Local Open Scope string_scope.
Local Open Scope list_scope.
Set Warnings "-register-all".

(* ------------------------------------------------------------------------- *)
(** ** JavaScript strings *)

Module JS.

(** UTF-16 code units. *)
Definition jsstring := list N.

(** A source literal (ASCII). *)
Definition lit (s : string) : jsstring :=
  map N_of_ascii (list_ascii_of_string s).

(** [a === b] on strings. *)
Fixpoint str_eqb (a b : jsstring) : bool :=
  match a, b with
  | [], [] => true
  | x :: a', y :: b' => N.eqb x y && str_eqb a' b'
  | _, _ => false
  end.

(** Decimal rendering of a number inside a template literal. *)
Definition decimal (n : N) : jsstring :=
  lit (NilEmpty.string_of_uint (N.to_uint n)).

(** ECMAScript WhiteSpace and LineTerminator code units: what [\s] matches
    and what [trim] strips. *)
Definition isWhiteSpace (c : N) : bool :=
  ((9 <=? c) && (c <=? 13) || (c =? 32) || (c =? 160) || (c =? 5760)
   || (8192 <=? c) && (c <=? 8202) || (c =? 8232) || (c =? 8233)
   || (c =? 8239) || (c =? 8287) || (c =? 12288) || (c =? 65279))%N.

Fixpoint trimStart (s : jsstring) : jsstring :=
  match s with
  | c :: s' => if isWhiteSpace c then trimStart s' else s
  | [] => []
  end.

Definition trim (s : jsstring) : jsstring :=
  rev (trimStart (rev (trimStart s))).

(** [s.substring(0, n)]. *)
Definition substring0 (n : nat) (s : jsstring) : jsstring := firstn n s.

(** [arr.includes(x)] on an array of strings. *)
Definition includes (arr : list jsstring) (x : jsstring) : bool :=
  existsb (str_eqb x) arr.

(** Values that appear in the objects the server builds. *)
Inductive value : Type :=
| VUndefined
| VNull
| VBool (b : bool)
| VNum (n : N)
| VNaN
| VStr (s : jsstring)
| VObj (props : list (string * value)).

(** [o.k]: the first binding of [k], [undefined] when there is none. *)
Fixpoint lookup (k : string) (props : list (string * value)) : value :=
  match props with
  | [] => VUndefined
  | (k', v) :: rest => if String.eqb k k' then v else lookup k rest
  end.

Definition get (k : string) (o : value) : value :=
  match o with
  | VObj props => lookup k props
  | _ => VUndefined
  end.

(** [k in o] for the objects above. *)
Definition has_key (k : string) (o : value) : bool :=
  match o with
  | VObj props => existsb (fun kv => String.eqb k (fst kv)) props
  | _ => false
  end.

Definition keys (o : value) : list string :=
  match o with
  | VObj props => map fst props
  | _ => []
  end.

(** [x || d] for an optional string: [undefined] and the empty string are
    falsy. *)
Definition or_else (x : option jsstring) (d : jsstring) : jsstring :=
  match x with
  | Some (c :: s) => c :: s
  | _ => d
  end.

(** [!x] for an optional string. *)
Definition falsy (x : option jsstring) : bool :=
  match x with
  | Some (_ :: _) => false
  | _ => true
  end.

(** A string-valued property that may be [undefined]. *)
Definition opt_str (x : option jsstring) : value :=
  match x with
  | Some s => VStr s
  | None => VUndefined
  end.

(** [JSON.stringify]: the document is kept as a tree rather than as
    characters; properties whose value is [undefined] are not serialised and
    [NaN] is written [null]. *)
Fixpoint JSON_stringify (v : value) : value :=
  match v with
  | VObj props =>
      VObj ((fix go (l : list (string * value)) : list (string * value) :=
               match l with
               | [] => []
               | (_, VUndefined) :: rest => go rest
               | (k, x) :: rest => (k, JSON_stringify x) :: go rest
               end) props)
  | VNaN => VNull
  | other => other
  end.

(** *** Regular expressions (the fragment [emailRegex] uses) *)

Inductive regex : Type :=
| Void
| Eps
| Class (p : N -> bool)
| Seq (r s : regex)
| Alt (r s : regex)
| Star (r : regex).

Definition Plus (r : regex) : regex := Seq r (Star r).
Definition Chr (c : string) : regex :=
  Class (fun u => existsb (N.eqb u) (lit c)).

Fixpoint nullable (r : regex) : bool :=
  match r with
  | Void => false
  | Eps => true
  | Class _ => false
  | Seq r s => nullable r && nullable s
  | Alt r s => nullable r || nullable s
  | Star _ => true
  end.

Fixpoint deriv (c : N) (r : regex) : regex :=
  match r with
  | Void => Void
  | Eps => Void
  | Class p => if p c then Eps else Void
  | Seq r s =>
      if nullable r then Alt (Seq (deriv c r) s) (deriv c s)
      else Seq (deriv c r) s
  | Alt r s => Alt (deriv c r) (deriv c s)
  | Star r => Seq (deriv c r) (Star r)
  end.

(** [/^r$/.test(s)]. *)
Definition test (r : regex) (s : jsstring) : bool :=
  nullable (fold_left (fun r c => deriv c r) s r).

(** What it means for a string to match, as a whole. *)
Inductive matches : regex -> jsstring -> Prop :=
| M_Eps : matches Eps []
| M_Class p c : p c = true -> matches (Class p) [c]
| M_Seq r s u v : matches r u -> matches s v -> matches (Seq r s) (u ++ v)
| M_Alt_l r s u : matches r u -> matches (Alt r s) u
| M_Alt_r r s u : matches s u -> matches (Alt r s) u
| M_Star_nil r : matches (Star r) []
| M_Star_more r u v :
    matches r u -> matches (Star r) v -> matches (Star r) (u ++ v).

End JS.
Import JS.

(* ------------------------------------------------------------------------- *)
(** ** Computations: external calls and exceptions *)

Module Async.

(** A thrown [Error]: its [message] and, for transport errors, its [code]. *)
Record Error : Type := { message : jsstring; code : option jsstring }.

Definition TypeError (m : string) : Error :=
  {| message := lit m; code := None |}.

Inductive completion (A : Type) : Type :=
| Normal (a : A)
| Throw (e : Error).
Arguments Normal {A} a.
Arguments Throw {A} e.

(** Options handed to [nodemailer.createTransport]. *)
Record SmtpOptions : Type := {
  host : jsstring;
  port : value;
  secure : bool;
  auth_user : jsstring;
  auth_pass : jsstring
}.

(** What comes back from the outside. *)
Record TestAccount : Type := { user : jsstring; pass : jsstring }.

(** [info] of [sendMail]: its [messageId] and what
    [nodemailer.getTestMessageUrl(info)] reads from it. *)
Record SentInfo : Type := {
  messageId : option jsstring;
  getTestMessageUrl : option jsstring
}.

(** An HTTP response: [ok], [status], the outcome of [text()] and the [id]
    property of the outcome of [json()]. *)
Record Response : Type := {
  ok : bool;
  status : N;
  text : completion jsstring;
  json_id : completion (option jsstring)
}.

(** The external calls the server can make. *)
Inductive Call : Type :=
| CreateTestAccount
| SendMail (via : SmtpOptions) (mailOptions : value)
| Verify (via : SmtpOptions)
| Fetch (url : jsstring) (init : value).

(** The outside: how the [n]-th external call is answered, and the clock. *)
Record Outside : Type := {
  createTestAccount : nat -> completion TestAccount;
  sendMail : nat -> SmtpOptions -> value -> completion SentInfo;
  verify : nat -> SmtpOptions -> completion unit;
  fetch : nat -> jsstring -> value -> completion Response;
  Date_now : nat -> N
}.

Record World : Type := { outside : Outside; calls : list Call }.

Definition IO (A : Type) : Type := World -> completion A * World.

Definition ret {A} (a : A) : IO A := fun w => (Normal a, w).

Definition throw {A} (e : Error) : IO A := fun w => (Throw e, w).

Definition bind {A B} (c : IO A) (k : A -> IO B) : IO B :=
  fun w =>
    match c w with
    | (Normal a, w') => k a w'
    | (Throw e, w') => (Throw e, w')
    end.

(** [try { c } catch (error) { h error }]. *)
Definition try_catch {A} (c : IO A) (h : Error -> IO A) : IO A :=
  fun w =>
    match c w with
    | (Normal a, w') => (Normal a, w')
    | (Throw e, w') => h e w'
    end.

(** [await] of an external call: it is recorded, and the outside answers. *)
Definition external {A} (c : Call)
    (answer : Outside -> nat -> completion A) : IO A :=
  fun w =>
    (answer (outside w) (length (calls w)),
     {| outside := outside w; calls := calls w ++ [c] |}).

(** [await] of something already received (a response body). *)
Definition settle {A} (c : completion A) : IO A := fun w => (c, w).

Definition now : IO N :=
  fun w => (Normal (Date_now (outside w) (length (calls w))), w).

End Async.
Import Async.

Declare Scope io_scope.
Delimit Scope io_scope with io.
Notation "x <- c ;; k" := (bind c (fun x => k))
  (at level 61, c at next level, right associativity) : io_scope.
Local Open Scope io_scope.

(* ------------------------------------------------------------------------- *)
(** ** mcp_server.js *)

Module McpServer.

(** [process.env]: the variables the server reads, each possibly unset. *)
Record Env : Type := {
  SMTP_HOST : option jsstring;
  SMTP_PORT : option jsstring;
  SMTP_SECURE : option jsstring;
  SMTP_USER : option jsstring;
  SMTP_PASS : option jsstring;
  SMTP_FROM : option jsstring;
  TEST_MODE_var : option jsstring;
  LINKEDIN_ACCESS_TOKEN : option jsstring;
  LINKEDIN_PERSON_URN : option jsstring
}.

(** The [arguments] object of a tool call.  Its properties are typed as the
    tools' [inputSchema] declares them; each may be absent ([undefined]). *)
Record Arguments : Type := {
  to : option jsstring;
  subject : option jsstring;
  body : option jsstring;
  from : option jsstring;
  html : option bool;
  content : option jsstring;
  visibility : option jsstring
}.

(** [request.params] of a tool call; [arguments] itself is optional. *)
Record CallToolRequest : Type := {
  name : jsstring;
  arguments : option Arguments
}.

(** One [{type: 'text', text: ...}] item; [text] is a JSON document. *)
Record TextContent : Type := { type : jsstring; text_json : value }.

(** The value the request handler returns; [isError] is [None] where the
    source leaves the property out. *)
Record CallToolResult : Type := {
  result_content : list TextContent;
  isError : option bool
}.

Definition str (x : option jsstring) : jsstring :=
  match x with Some s => s | None => [] end.

Definition len (s : jsstring) : N := N.of_nat (length s).

Definition env_is_true (x : option jsstring) : bool :=
  match x with Some s => str_eqb s (lit "true") | None => false end.

Definition quote : jsstring := [34%N].

(** The code units line 331 holds between [test mode] and [no API]:
    U+00E2, U+20AC, U+201D. *)
Definition dash : jsstring := [226; 8364; 8221]%N.

Section Server.

(** The engine's [String.prototype.toUpperCase] and [parseInt]. *)
Variable toUpperCase : jsstring -> jsstring.
Variable parseInt : jsstring -> value.

Variable env : Env.

(** *** Configuration *)

Definition SMTP_CONFIG : SmtpOptions :=
  {| host := or_else (SMTP_HOST env) (lit "smtp.ethereal.email");
     port := parseInt (or_else (SMTP_PORT env) (lit "587"));
     secure := env_is_true (SMTP_SECURE env);
     auth_user := or_else (SMTP_USER env) [];
     auth_pass := or_else (SMTP_PASS env) [] |}.

Definition DEFAULT_FROM : jsstring :=
  or_else (SMTP_FROM env) (lit "ai-employee@example.com").

Definition TEST_MODE : bool :=
  env_is_true (TEST_MODE_var env) || falsy (Some (auth_user SMTP_CONFIG)).

Definition LINKEDIN_accessToken : jsstring :=
  or_else (LINKEDIN_ACCESS_TOKEN env) [].
Definition LINKEDIN_personUrn : jsstring :=
  or_else (LINKEDIN_PERSON_URN env) [].

Definition LINKEDIN_TEST_MODE : bool :=
  falsy (Some LINKEDIN_accessToken) || falsy (Some LINKEDIN_personUrn).

(** *** Email transport setup *)

(** The value [initializeTransporter] leaves in [transporter]. *)
Definition initializeTransporter : IO (option SmtpOptions) :=
  if TEST_MODE && falsy (Some (auth_user SMTP_CONFIG)) then
    try_catch
      (testAccount <- external CreateTestAccount createTestAccount ;;
       ret (Some {| host := lit "smtp.ethereal.email";
                    port := VNum 587;
                    secure := false;
                    auth_user := user testAccount;
                    auth_pass := pass testAccount |}))
      (fun _ => ret None)
  else
    ret (Some SMTP_CONFIG).

(** *** Tool definitions *)

(** The [name]s of [TOOLS], in order. *)
Definition TOOLS : list jsstring :=
  [lit "send_email"; lit "post_linkedin"; lit "check_email_config"].

(** *** Tool handlers *)

Definition notSpaceAt : regex :=
  Class (fun c => negb (isWhiteSpace c || (c =? 64)%N)).

(** [/^[^\s@]+@[^\s@]+\.[^\s@]+$/] *)
Definition emailRegex : regex :=
  Seq (Plus notSpaceAt)
      (Seq (Chr "@") (Seq (Plus notSpaceAt) (Seq (Chr ".") (Plus notSpaceAt)))).

Definition handleSendEmail (transporter : option SmtpOptions)
    (params : option Arguments) : IO value :=
  match params with
  | None =>
      throw (TypeError
        "Cannot destructure property 'to' of 'params' as it is undefined.")
  | Some params =>
      let from := match from params with Some f => f | None => DEFAULT_FROM end in
      let html := match html params with Some h => h | None => false end in
      if falsy (to params) || falsy (subject params) || falsy (body params) then
        ret (VObj [("success", VBool false);
                   ("error", VStr (lit
                      "Missing required parameters: to, subject, and body are required"))])
      else
        let to := str (to params) in
        let subject := str (subject params) in
        let body := str (body params) in
        if negb (test emailRegex to) then
          ret (VObj [("success", VBool false);
                     ("error", VStr (lit "Invalid email address format: " ++ to))])
        else
          let mailOptions :=
            VObj [("from", VStr from);
                  ("to", VStr to);
                  ("subject", VStr subject);
                  (if html then "html" else "text", VStr body)] in
          match transporter with
          | None =>
              ret (VObj [("success", VBool true);
                         ("mode", VStr (lit "mock"));
                         ("message", VStr (lit
                            "Email logged (mock mode - no SMTP configured)"));
                         ("details", mailOptions)])
          | Some transporter =>
              try_catch
                (info <- external (SendMail transporter mailOptions)
                           (fun o n => sendMail o n transporter mailOptions) ;;
                 let result :=
                   [("success", VBool true);
                    ("messageId", opt_str (messageId info));
                    ("to", VStr to);
                    ("subject", VStr subject)] in
                 if negb (falsy (messageId info)) && TEST_MODE then
                   let previewUrl := getTestMessageUrl info in
                   if negb (falsy previewUrl) then
                     ret (VObj (result ++ [("previewUrl", VStr (str previewUrl))]))
                   else ret (VObj result)
                 else ret (VObj result))
                (fun error =>
                   ret (VObj [("success", VBool false);
                              ("error", VStr (message error));
                              ("code", opt_str (code error))]))
          end
  end.

Definition validVisibility : list jsstring :=
  [lit "PUBLIC"; lit "CONNECTIONS"].

Definition handlePostLinkedin (params : option Arguments) : IO value :=
  match params with
  | None =>
      throw (TypeError
        "Cannot destructure property 'content' of 'params' as it is undefined.")
  | Some params =>
      let visibility :=
        match visibility params with Some v => v | None => lit "PUBLIC" end in
      if falsy (content params)
         || (len (trim (str (content params))) =? 0)%N then
        ret (VObj [("success", VBool false);
                   ("error", VStr (lit
                      "Missing required parameter: content cannot be empty"))])
      else
        let content := str (content params) in
        if (3000 <? len content)%N then
          ret (VObj [("success", VBool false);
                     ("error", VStr (lit "Post content too long: "
                                     ++ decimal (len content)
                                     ++ lit " characters (max 3000)"))])
        else
          let vis := toUpperCase visibility in
          if negb (includes validVisibility vis) then
            ret (VObj [("success", VBool false);
                       ("error", VStr (lit "Invalid visibility " ++ quote
                                       ++ visibility ++ quote
                                       ++ lit ". Must be PUBLIC or CONNECTIONS"))])
          else if LINKEDIN_TEST_MODE then
            t <- now ;;
            let demoPostId := lit "demo-" ++ decimal t in
            ret (VObj [("success", VBool true);
                       ("mode", VStr (lit "test"));
                       ("message", VStr (lit "LinkedIn post logged (test mode "
                                         ++ dash
                                         ++ lit " no API credentials configured)"));
                       ("postId", VStr demoPostId);
                       ("postUrl", VStr (lit "https://www.linkedin.com/feed/update/"
                                         ++ demoPostId));
                       ("content", VStr (substring0 200 content
                                         ++ (if (200 <? len content)%N
                                             then lit "..." else [])));
                       ("visibility", VStr vis);
                       ("characterCount", VNum (len content));
                       ("note", VStr (lit
                          "Set LINKEDIN_ACCESS_TOKEN and LINKEDIN_PERSON_URN for live posting"))])
          else
            try_catch
              (let postBody :=
                 VObj [("author", VStr LINKEDIN_personUrn);
                       ("lifecycleState", VStr (lit "PUBLISHED"));
                       ("specificContent",
                        VObj [("com.linkedin.ugc.ShareContent",
                               VObj [("shareCommentary",
                                      VObj [("text", VStr content)]);
                                     ("shareMediaCategory", VStr (lit "NONE"))])]);
                       ("visibility",
                        VObj [("com.linkedin.ugc.MemberNetworkVisibility",
                               VStr vis)])] in
               let url := lit "https://api.linkedin.com/v2/ugcPosts" in
               let init :=
                 VObj [("method", VStr (lit "POST"));
                       ("headers",
                        VObj [("Authorization",
                               VStr (lit "Bearer " ++ LINKEDIN_accessToken));
                              ("Content-Type", VStr (lit "application/json"));
                              ("X-Restli-Protocol-Version", VStr (lit "2.0.0"))]);
                       ("body", JSON_stringify postBody)] in
               response <- external (Fetch url init)
                             (fun o n => fetch o n url init) ;;
               if negb (ok response) then
                 errorBody <- settle (text response) ;;
                 ret (VObj [("success", VBool false);
                            ("error", VStr (lit "LinkedIn API error: "
                                            ++ decimal (status response)));
                            ("details", VStr errorBody)])
               else
                 data_id <- settle (json_id response) ;;
                 let postId := or_else data_id (lit "unknown") in
                 ret (VObj [("success", VBool true);
                            ("mode", VStr (lit "live"));
                            ("postId", VStr postId);
                            ("postUrl", VStr (lit "https://www.linkedin.com/feed/update/"
                                              ++ postId));
                            ("visibility", VStr vis);
                            ("characterCount", VNum (len content))]))
              (fun error =>
                 ret (VObj [("success", VBool false);
                            ("error", VStr (message error))]))
  end.

Definition handleCheckEmailConfig (transporter : option SmtpOptions) : IO value :=
  let config :=
    [("testMode", VBool TEST_MODE);
     ("smtpHost", VStr (host SMTP_CONFIG));
     ("smtpPort", port SMTP_CONFIG);
     ("hasCredentials", VBool (negb (falsy (Some (auth_user SMTP_CONFIG)))));
     ("defaultFrom", VStr DEFAULT_FROM)] in
  match transporter with
  | Some transporter =>
      try_catch
        (_ <- external (Verify transporter) (fun o n => verify o n transporter) ;;
         ret (VObj (config ++
                    [("connectionStatus", VStr (lit "connected"));
                     ("message", VStr (lit "SMTP connection verified successfully"))])))
        (fun error =>
           ret (VObj (config ++
                      [("connectionStatus", VStr (lit "error"));
                       ("message", VStr (lit "Connection failed: " ++ message error))])))
  | None =>
      ret (VObj (config ++
                 [("connectionStatus", VStr (lit "mock"));
                  ("message", VStr (lit "Running in mock mode (no SMTP configured)"))]))
  end.

(** *** MCP server setup *)

(** The handlers the request handler refers to. *)
Record Handlers : Type := {
  on_send_email : option Arguments -> IO value;
  on_post_linkedin : option Arguments -> IO value;
  on_check_email_config : IO value
}.

Definition text_of (v : value) : TextContent :=
  {| type := lit "text"; text_json := JSON_stringify v |}.

Definition error_result (msg : jsstring) : CallToolResult :=
  {| result_content := [text_of (VObj [("error", VStr msg)])];
     isError := Some true |}.

(** The [CallToolRequestSchema] request handler, over the handlers the
    [switch] calls. *)
Definition callToolWith (h : Handlers) (request : CallToolRequest)
    : IO CallToolResult :=
  let name := name request in
  let args := arguments request in
  let finish (result : value) : IO CallToolResult :=
    ret {| result_content := [text_of result]; isError := None |} in
  try_catch
    (if str_eqb name (lit "send_email") then
       result <- on_send_email h args ;; finish result
     else if str_eqb name (lit "post_linkedin") then
       result <- on_post_linkedin h args ;; finish result
     else if str_eqb name (lit "check_email_config") then
       result <- on_check_email_config h ;; finish result
     else
       ret (error_result (lit "Unknown tool: " ++ name)))
    (fun error => ret (error_result (message error))).

Definition handlers (transporter : option SmtpOptions) : Handlers :=
  {| on_send_email := handleSendEmail transporter;
     on_post_linkedin := handlePostLinkedin;
     on_check_email_config := handleCheckEmailConfig transporter |}.

Definition callTool (transporter : option SmtpOptions)
    (request : CallToolRequest) : IO CallToolResult :=
  callToolWith (handlers transporter) request.

(** *** Main entry point *)

Fixpoint serve (transporter : option SmtpOptions)
    (requests : list CallToolRequest) : IO (list CallToolResult) :=
  match requests with
  | [] => ret []
  | request :: rest =>
      r <- callTool transporter request ;;
      rs <- serve transporter rest ;;
      ret (r :: rs)
  end.

(** [main], followed by the requests the transport delivers. *)
Definition main (requests : list CallToolRequest) : IO (list CallToolResult) :=
  transporter <- initializeTransporter ;;
  serve transporter requests.

End Server.

(** The payload of a tool-call result: the document of its text item. *)
Definition payload (r : CallToolResult) : value :=
  match result_content r with
  | item :: _ => text_json item
  | [] => VUndefined
  end.

End McpServer.

(* ------------------------------------------------------------------------- *)
(** ** The Approval Handler Skill *)

Module ApprovalHandler.
Import McpServer.

(** [status:] of a task file. *)
Inductive Status : Type :=
| pending
| pending_approval
| completed
| rejected
| execution_failed.

(** The folder a task file lies in. *)
Inductive Folder : Type := Needs_Action | Pending_Approval | Done.

(** [execution_result:] the per-action results, or the error detail. *)
Inductive ExecutionResult : Type :=
| Succeeded (results : list value)
| Failed (tool : jsstring) (detail : value).

(** A task file: its YAML frontmatter, the MCP action details of its body,
    and where it lies.  [mcp_action] is [None] when the field is absent. *)
Record Task : Type := {
  file : string;
  folder : Folder;
  status : Status;
  approval_needed : bool;
  approved : bool;
  mcp_action : option (list jsstring);
  details : Arguments;
  execution_result : option ExecutionResult;
  retry_count : N;
  completed_at : option N
}.

(** Rows of [System_Log.md] written by the skill.  The tables of
    [Dashboard.md] are views of the folders, and the optional reminders of
    Step 3C only add rows to the log: neither is modelled. *)
Inductive LogEntry : Type :=
| No_pending_approvals
| Approval_Executed (task : string)
| MCP_Action (tool : jsstring) (result : value)
| Approval_Rejected (task : string)
| Execution_Failed (task : string) (tool : jsstring) (detail : value)
| Warning_no_mcp_action (task : string).

(** What the skill acts on besides the task files: the system log, the
    tool calls sent to the MCP server so far, and the server's outside. *)
Record Effects : Type := {
  System_Log : list LogEntry;
  mcp_calls : list CallToolRequest;
  world : World
}.

Record Vault : Type := { tasks : list Task; effects : Effects }.

Definition log (entry : LogEntry) (e : Effects) : Effects :=
  {| System_Log := entry :: System_Log e;
     mcp_calls := mcp_calls e;
     world := world e |}.

(** Step 2: the classification table. *)
Inductive Classification : Type := Approved | Rejected | Waiting | Unclassified.

Definition is_rejected (s : Status) : bool :=
  match s with rejected => true | _ => false end.
Definition is_pending_approval (s : Status) : bool :=
  match s with pending_approval => true | _ => false end.

(** The rows are tried from the top: [approved: true] is looked at first,
    and a file matching no row is left alone. *)
Definition classify (t : Task) : Classification :=
  if approved t then Approved
  else if is_rejected (status t) then Rejected
  else if is_pending_approval (status t) then Waiting
  else Unclassified.

(** Modelled from the spec: the Approval Gate of section 4.1 (the
    [Approval_Check_Skill] that implements it is not among the sources).  An
    action is marked as always requiring approval when its [TOOLS]
    description says so: [send_email] and [post_linkedin] (the spec's
    [publish_social_post]); [check_email_config] is not. *)
Definition alwaysRequiresApproval (action : jsstring) : bool :=
  str_eqb action (lit "send_email") || str_eqb action (lit "post_linkedin").

Definition actions_of (t : Task) : list jsstring :=
  match mcp_action t with Some l => l | None => [] end.

(** Modelled from the spec: [classify(task)], "a task requires approval if
    any of its referenced actions is marked alwaysRequiresApproval, or if the
    originator explicitly requested gating". *)
Definition approvalRequired (t : Task) : bool :=
  existsb alwaysRequiresApproval (actions_of t) || approval_needed t.

(** Modelled from the spec: the gate stamps a task of [/Needs_Action/] and,
    when approval is required, sets [status: pending_approval] and moves the
    file to [/Pending_Approval/] (Step 4 of the LinkedIn Post Skill). *)
Definition gate (t : Task) : Task :=
  match folder t with
  | Needs_Action =>
      if approvalRequired t then
        {| file := file t; folder := Pending_Approval;
           status := pending_approval; approval_needed := true;
           approved := approved t; mcp_action := mcp_action t;
           details := details t; execution_result := execution_result t;
           retry_count := retry_count t; completed_at := completed_at t |}
      else t
  | _ => t
  end.

Section Skill.

Variable toUpperCase : jsstring -> jsstring.
Variable parseInt : jsstring -> value.
Variable env : Env.

(** The [transporter] of the running MCP server. *)
Variable transporter : option SmtpOptions.

Definition request_for (tool : jsstring) (args : Arguments) : CallToolRequest :=
  {| name := tool; arguments := Some args |}.

(** Calling an MCP tool: the request goes to the server's request handler. *)
Definition call_mcp (tool : jsstring) (args : Arguments) (e : Effects)
    : completion CallToolResult * Effects :=
  let request := request_for tool args in
  let (r, w) := callTool toUpperCase parseInt env transporter request (world e) in
  (r, {| System_Log := System_Log e;
         mcp_calls := mcp_calls e ++ [request];
         world := w |}).

Definition is_false (v : value) : bool :=
  match v with VBool false => true | _ => false end.

(** "If the MCP action fails": the error detail of a failed call. *)
Definition failure (r : completion CallToolResult) : option value :=
  match r with
  | Throw error => Some (VStr (message error))
  | Normal res =>
      match isError res with
      | Some true => Some (get "error" (payload res))
      | _ =>
          if is_false (get "success" (payload res))
          then Some (get "error" (payload res))
          else None
      end
  end.

Definition result_of (r : completion CallToolResult) : value :=
  match r with
  | Normal res => payload res
  | Throw _ => VUndefined
  end.

(** Step 3A.2, "Execute all in order; if any fails, stop and report". *)
Fixpoint execute (actions : list jsstring) (args : Arguments) (e : Effects)
    : ExecutionResult * Effects :=
  match actions with
  | [] => (Succeeded [], e)
  | tool :: rest =>
      let (r, e1) := call_mcp tool args e in
      match failure r with
      | Some detail => (Failed tool detail, e1)
      | None =>
          let (o, e2) := execute rest args (log (MCP_Action tool (result_of r)) e1) in
          match o with
          | Succeeded results => (Succeeded (result_of r :: results), e2)
          | Failed t d => (Failed t d, e2)
          end
      end
  end.

Definition timestamp (e : Effects) : N :=
  Date_now (outside (world e)) (length (calls (world e))).

(** Steps 3A.3 to 3A.7 on success, Step 4 on failure. *)
Definition file_outcome (o : ExecutionResult) (t : Task) (e : Effects)
    : Task * Effects :=
  match o with
  | Succeeded results =>
      ({| file := file t; folder := Done;
          status := completed; approval_needed := true; approved := true;
          mcp_action := mcp_action t; details := details t;
          execution_result := Some o;
          retry_count := retry_count t;
          completed_at := Some (timestamp e) |},
       log (Approval_Executed (file t)) e)
  | Failed tool detail =>
      ({| file := file t; folder := Pending_Approval;
          status := execution_failed; approval_needed := approval_needed t;
          approved := approved t;
          mcp_action := mcp_action t; details := details t;
          execution_result := Some o;
          retry_count := retry_count t + 1;
          completed_at := completed_at t |},
       log (Execution_Failed (file t) tool detail) e)
  end.

(** Step 3A. *)
Definition handle_approved (t : Task) (e : Effects) : Task * Effects :=
  match mcp_action t with
  | None => (t, log (Warning_no_mcp_action (file t)) e)
  | Some actions =>
      let (o, e1) := execute actions (details t) e in
      file_outcome o t e1
  end.

(** Step 3B. *)
Definition handle_rejected (t : Task) (e : Effects) : Task * Effects :=
  ({| file := file t; folder := Done;
      status := rejected; approval_needed := approval_needed t;
      approved := false;
      mcp_action := mcp_action t; details := details t;
      execution_result := execution_result t;
      retry_count := retry_count t;
      completed_at := Some (timestamp e) |},
   log (Approval_Rejected (file t)) e).

(** Steps 2 and 3 for one file of [/Pending_Approval/]. *)
Definition handle_task (t : Task) (e : Effects) : Task * Effects :=
  match classify t with
  | Approved => handle_approved t e
  | Rejected => handle_rejected t e
  | Waiting => (t, e)
  | Unclassified => (t, e)
  end.

Definition in_Pending_Approval (t : Task) : bool :=
  match folder t with Pending_Approval => true | _ => false end.

Fixpoint scan_files (ts : list Task) (e : Effects) : list Task * Effects :=
  match ts with
  | [] => ([], e)
  | t :: rest =>
      let (t', e1) :=
        if in_Pending_Approval t then handle_task t e else (t, e) in
      let (rest', e2) := scan_files rest e1 in
      (t' :: rest', e2)
  end.

(** One run of the skill: Step 1 lists [/Pending_Approval/], then each file
    is handled in turn. *)
Definition scan (v : Vault) : Vault :=
  if existsb in_Pending_Approval (tasks v) then
    let (ts, e) := scan_files (tasks v) (effects v) in
    {| tasks := ts; effects := e |}
  else
    {| tasks := tasks v; effects := log No_pending_approvals (effects v) |}.

(** *** The life of one task *)

(** What a human may edit in a file of [/Pending_Approval/]. *)
Inductive Edit : Type :=
| Set_approved (b : bool)
| Set_status (s : Status)
| Set_details (d : Arguments).

Definition edit (ed : Edit) (t : Task) : Task :=
  {| file := file t; folder := folder t;
     status := match ed with Set_status s => s | _ => status t end;
     approval_needed := approval_needed t;
     approved := match ed with Set_approved b => b | _ => approved t end;
     mcp_action := mcp_action t;
     details := match ed with Set_details d => d | _ => details t end;
     execution_result := execution_result t;
     retry_count := retry_count t;
     completed_at := completed_at t |}.

Inductive Step : Type :=
| Gate_step
| Human_step (ed : Edit)
| Scan_step.

Definition step (s : Step) (st : Task * Effects) : Task * Effects :=
  let (t, e) := st in
  match s with
  | Gate_step => (gate t, e)
  | Human_step ed => if in_Pending_Approval t then (edit ed t, e) else (t, e)
  | Scan_step => if in_Pending_Approval t then handle_task t e else (t, e)
  end.

Definition run (steps : list Step) (st : Task * Effects) : Task * Effects :=
  fold_left (fun st s => step s st) steps st.

(** *** Overlapping runs of the skill on one file *)

(** Where one run of the skill stands with the file: it has not looked yet,
    it has read an approved task (Steps 2 and 3A.1), it has executed the
    actions (Step 3A.2), or it is through with the file. *)
Inductive Phase : Type :=
| Not_looked
| Read_approved (actions : list jsstring) (args : Arguments)
| Executed (o : ExecutionResult)
| Through.

Definition advance (p : Phase) (t : Task) (e : Effects)
    : Phase * (Task * Effects) :=
  match p with
  | Not_looked =>
      if in_Pending_Approval t then
        match classify t with
        | Approved =>
            match mcp_action t with
            | Some actions => (Read_approved actions (details t), (t, e))
            | None => (Through, (t, log (Warning_no_mcp_action (file t)) e))
            end
        | Rejected => (Through, handle_rejected t e)
        | Waiting => (Through, (t, e))
        | Unclassified => (Through, (t, e))
        end
      else (Through, (t, e))
  | Read_approved actions args =>
      let (o, e1) := execute actions args e in
      (Executed o, (t, e1))
  | Executed o => (Through, file_outcome o t e)
  | Through => (Through, (t, e))
  end.

(** Two runs [false] and [true] of the skill over the same file; a schedule
    says which run takes the next step. *)
Record Overlap : Type := {
  first_run : Phase;
  second_run : Phase;
  shared : Task * Effects
}.

Definition overlap_step (o : Overlap) (who : bool) : Overlap :=
  let (t, e) := shared o in
  if who then
    let (p, s) := advance (second_run o) t e in
    {| first_run := first_run o; second_run := p; shared := s |}
  else
    let (p, s) := advance (first_run o) t e in
    {| first_run := p; second_run := second_run o; shared := s |}.

Definition interleave (schedule : list bool) (o : Overlap) : Overlap :=
  fold_left overlap_step schedule o.

End Skill.

End ApprovalHandler.

(* ------------------------------------------------------------------------- *)
(** ** The MCP Action Logger Skill *)

Module ActionLogger.

(** Step 1: what is captured after a tool call. *)
Record Captured : Type := {
  tool_name : jsstring;
  target : jsstring;
  succeeded : bool;
  details : jsstring;
  timestamp : jsstring
}.

(** A table row: its cells, left to right. *)
Definition Row : Type := list jsstring.

Definition status_text (c : Captured) : jsstring :=
  if succeeded c then lit "Success" else lit "Failed".

(** Step 2: [| <timestamp> | <tool_name> | <target> | <status> | <notes> |]. *)
Definition format_row (c : Captured) : Row :=
  [timestamp c; tool_name c; target c; status_text c; details c].

(** Step 4: [| <timestamp> | MCP Action | <tool_name> to <target>: <status> |]. *)
Definition log_row (c : Captured) : Row :=
  [timestamp c; lit "MCP Action";
   tool_name c ++ lit " to " ++ target c ++ lit ": " ++ status_text c].

Definition placeholder : Row :=
  [lit "_No recent actions_"; lit "-"; lit "-"; lit "-"; lit "-"].

(** A row is the placeholder when its first cell says so. *)
Definition is_placeholder (r : Row) : bool :=
  match r with
  | cell :: _ => str_eqb cell (lit "_No recent actions_")
  | [] => false
  end.

(** The two tables the skill writes: Recent Actions of [Dashboard.md] and
    the Activity Log of [System_Log.md], both newest first. *)
Record Books : Type := {
  Recent_Actions : list Row;
  Activity_Log : list Row
}.

(** Steps 3 and 4 with the cleanup rule: the placeholder goes, the new row
    is inserted at the top, only the 10 most recent rows stay on the
    dashboard, and the log gets its row at the top. *)
Definition log_action (c : Captured) (b : Books) : Books :=
  {| Recent_Actions :=
       firstn 10
         (format_row c
          :: filter (fun r => negb (is_placeholder r)) (Recent_Actions b));
     Activity_Log := log_row c :: Activity_Log b |}.

(** The tool calls of a session, logged one after the other. *)
Definition log_all (cs : list Captured) (b : Books) : Books :=
  fold_left (fun b c => log_action c b) cs b.

End ActionLogger.

(* ------------------------------------------------------------------------- *)
(** ** test_email.js *)

Module TestEmail.
Import McpServer.

(** How the script ends: it runs to its last line, or [process.exit(code)]. *)
Inductive ScriptEnd : Type :=
| Completed
| Exit (code : N).

Definition newline : jsstring := [10%N].

Section Script.

Variable parseInt : jsstring -> value.

(** [new Date(ms).toISOString()]. *)
Variable toISOString : N -> jsstring.

Variable env : Env.

Definition hasConfig : bool :=
  negb (falsy (SMTP_USER env)) && negb (falsy (SMTP_PASS env)).

Definition configured : SmtpOptions :=
  {| host := or_else (SMTP_HOST env) (lit "smtp.gmail.com");
     port := parseInt (or_else (SMTP_PORT env) (lit "587"));
     secure := env_is_true (SMTP_SECURE env);
     auth_user := str (SMTP_USER env);
     auth_pass := str (SMTP_PASS env) |}.

Definition ethereal (testAccount : TestAccount) : SmtpOptions :=
  {| host := lit "smtp.ethereal.email";
     port := VNum 587;
     secure := false;
     auth_user := user testAccount;
     auth_pass := pass testAccount |}.

(** The test message; [sentAt] is the clock read when it is built. *)
Definition message (testAccount : option TestAccount) (sentAt : N) : value :=
  VObj [("from", match testAccount with
                 | Some a => VStr (user a)
                 | None => opt_str (SMTP_FROM env)
                 end);
        ("to", VStr (lit "test@example.com"));
        ("subject", VStr (lit "Silver Tier MCP Server - Test Email"));
        ("text",
         VStr (lit "This is a test email from the Silver Tier AI Employee MCP Server."
               ++ newline ++ newline
               ++ lit "Sent at: " ++ toISOString sentAt
               ++ newline ++ newline
               ++ lit "If you received this email, your SMTP configuration is working correctly!"));
        ("html",
         VStr (newline
               ++ lit "        <h1>Silver Tier MCP Server</h1>" ++ newline
               ++ lit "        <p>This is a test email from the Silver Tier AI Employee MCP Server.</p>"
               ++ newline
               ++ lit "        <p><strong>Sent at:</strong> " ++ toISOString sentAt
               ++ lit "</p>" ++ newline
               ++ lit "        <p>If you received this email, your SMTP configuration is working correctly!</p>"
               ++ newline ++ lit "      "))].

(** The transporter set-up: [None] stands for [process.exit(1)]. *)
Definition setUp (w : World)
    : option (option TestAccount * SmtpOptions) * World :=
  if hasConfig then (Some (None, configured), w)
  else
    match external CreateTestAccount createTestAccount w with
    | (Normal testAccount, w1) =>
        (Some (Some testAccount, ethereal testAccount), w1)
    | (Throw _, w1) => (None, w1)
    end.

Definition testEmail (w : World) : ScriptEnd * World :=
  match setUp w with
  | (None, w1) => (Exit 1, w1)
  | (Some (testAccount, transporter), w1) =>
      match external (Verify transporter)
              (fun o n => verify o n transporter) w1 with
      | (Throw _, w2) => (Exit 1, w2)
      | (Normal _, w2) =>
          let mail :=
            message testAccount (Date_now (outside w2) (length (calls w2))) in
          match external (SendMail transporter mail)
                  (fun o n => sendMail o n transporter mail) w2 with
          | (Throw _, w3) => (Exit 1, w3)
          | (Normal _, w3) => (Completed, w3)
          end
      end
  end.

End Script.

End TestEmail.

(* ------------------------------------------------------------------------- *)
(** ** Vocabulary of the statements *)

Module Vocabulary.
Import McpServer.

(** A failure result as the validation branches build it. *)
Definition validation_failure (msg : jsstring) : value :=
  VObj [("success", VBool false); ("error", VStr msg)].

(** The [visibility] a call asks for, with the default of the parameter. *)
Definition requested_visibility (params : Arguments) : jsstring :=
  match visibility params with Some v => v | None => lit "PUBLIC" end.

Definition with_visibility (params : Arguments) (v : option jsstring)
    : Arguments :=
  {| to := to params; subject := subject params; body := body params;
     from := from params; html := html params;
     content := content params; visibility := v |}.

(** [content] gets through the two content checks of [handlePostLinkedin]. *)
Definition content_passes (params : Arguments) : bool :=
  negb (falsy (content params) || (len (trim (str (content params))) =? 0)%N)
  && negb (3000 <? len (str (content params)))%N.

(** The parameters get through the two checks of [handleSendEmail]. *)
Definition email_passes (params : Arguments) : bool :=
  negb (falsy (to params) || falsy (subject params) || falsy (body params))
  && test emailRegex (str (to params)).

(** A non-empty run of code units that are neither white space nor [@]. *)
Definition address_part (u : jsstring) : Prop :=
  u <> [] /\ forallb (fun c => negb (isWhiteSpace c || (c =? 64)%N)) u = true.

(** The handler the [switch] of the request handler selects, if any. *)
Definition selected (h : Handlers) (request : CallToolRequest)
    : option (IO value) :=
  if str_eqb (name request) (lit "send_email")
  then Some (on_send_email h (arguments request))
  else if str_eqb (name request) (lit "post_linkedin")
  then Some (on_post_linkedin h (arguments request))
  else if str_eqb (name request) (lit "check_email_config")
  then Some (on_check_email_config h)
  else None.

(** The properties of the live success result of [handlePostLinkedin]. *)
Definition live_post_keys : list string :=
  ["success"; "mode"; "postId"; "postUrl"; "visibility"; "characterCount"].

(** The properties of the success result of a send through a transporter,
    before the optional [previewUrl]. *)
Definition sent_keys : list string := ["success"; "messageId"; "to"; "subject"].

(** The properties of the mock-mode success result. *)
Definition mock_keys : list string := ["success"; "mode"; "message"; "details"].

(** A task a scan has nothing to do for: it lies outside
    [/Pending_Approval/], or it matches neither the approved nor the
    rejected row of the classification table. *)
Definition at_rest (t : ApprovalHandler.Task) : bool :=
  negb (ApprovalHandler.in_Pending_Approval t)
  || match ApprovalHandler.classify t with
     | ApprovalHandler.Waiting | ApprovalHandler.Unclassified => true
     | _ => false
     end.

End Vocabulary.

(* ------------------------------------------------------------------------- *)
(** ** Sample engines, environments and outsides *)

Module Samples.
Import McpServer ApprovalHandler.

(** [toUpperCase] on ASCII letters; other code units are left as they are. *)
Definition ascii_toUpperCase (s : jsstring) : jsstring :=
  map (fun c => if (97 <=? c)%N && (c <=? 122)%N then (c - 32)%N else c) s.

(** [parseInt] on strings of decimal digits. *)
Definition digits_parseInt (s : jsstring) : value :=
  match s with
  | [] => VNaN
  | _ =>
      if forallb (fun c => (48 <=? c)%N && (c <=? 57)%N) s
      then VNum (fold_left (fun acc c => (10 * acc + (c - 48))%N) s 0%N)
      else VNaN
  end.

(** No variable set. *)
Definition bare_env : Env :=
  {| SMTP_HOST := None; SMTP_PORT := None; SMTP_SECURE := None;
     SMTP_USER := None; SMTP_PASS := None; SMTP_FROM := None;
     TEST_MODE_var := None;
     LINKEDIN_ACCESS_TOKEN := None; LINKEDIN_PERSON_URN := None |}.

(** SMTP and LinkedIn credentials set. *)
Definition live_env : Env :=
  {| SMTP_HOST := Some (lit "smtp.gmail.com"); SMTP_PORT := Some (lit "587");
     SMTP_SECURE := None;
     SMTP_USER := Some (lit "me@gmail.com"); SMTP_PASS := Some (lit "secret");
     SMTP_FROM := Some (lit "me@gmail.com");
     TEST_MODE_var := None;
     LINKEDIN_ACCESS_TOKEN := Some (lit "token");
     LINKEDIN_PERSON_URN := Some (lit "urn:li:person:1") |}.

Definition refused : Error :=
  {| message := lit "connect ECONNREFUSED"; code := Some (lit "ESOCKET") |}.

(** An outside where every call goes through. *)
Definition reachable : Outside :=
  {| createTestAccount := fun _ =>
       Normal {| user := lit "u@ethereal.email"; pass := lit "p" |};
     sendMail := fun _ t _ =>
       Normal {| messageId := Some (lit "<e426fb07@example.com>");
                 getTestMessageUrl :=
                   if str_eqb (host t) (lit "smtp.ethereal.email")
                   then Some (lit "https://ethereal.email/message/e426fb07")
                   else None |};
     verify := fun _ _ => Normal tt;
     fetch := fun _ _ _ =>
       Normal {| ok := true; Async.status := 201;
                 text := Normal (lit "{}");
                 json_id := Normal (Some (lit "urn:li:share:7")) |};
     Date_now := fun _ => 1770327000000%N |}.

(** An outside where the first external call is refused and later ones go
    through. *)
Definition flaky : Outside :=
  {| createTestAccount := fun n =>
       match n with O => Throw refused | _ => createTestAccount reachable n end;
     sendMail := fun n t m =>
       match n with O => Throw refused | _ => sendMail reachable n t m end;
     verify := fun n t =>
       match n with O => Throw refused | _ => verify reachable n t end;
     fetch := fun n u i =>
       match n with O => Throw refused | _ => fetch reachable n u i end;
     Date_now := Date_now reachable |}.

Definition fresh_world (o : Outside) : World := {| outside := o; calls := [] |}.

Definition no_arguments : Arguments :=
  {| to := None; subject := None; body := None; from := None; html := None;
     content := None; visibility := None |}.

(** The payload of round-trip scenario 1. *)
Definition email_arguments : Arguments :=
  {| to := Some (lit "a@b.com"); subject := Some (lit "S");
     body := Some (lit "B"); from := None; html := None;
     content := None; visibility := None |}.

(** The payload of scenario 2. *)
Definition bad_email_arguments : Arguments :=
  {| to := Some (lit "not-an-email"); subject := Some (lit "S");
     body := Some (lit "B"); from := None; html := None;
     content := None; visibility := None |}.

Definition post_arguments (c : jsstring) (v : option jsstring) : Arguments :=
  {| to := None; subject := None; body := None; from := None; html := None;
     content := Some c; visibility := v |}.

(** The payload of scenario 3: 3500 characters. *)
Definition long_post : Arguments := post_arguments (repeat 120%N 3500) None.

Definition gmail : SmtpOptions :=
  SMTP_CONFIG digits_parseInt live_env.

Definition fresh_effects (o : Outside) : Effects :=
  {| System_Log := []; mcp_calls := []; world := fresh_world o |}.

(** A task file as an originator leaves it in [/Needs_Action/]. *)
Definition new_task (name : string) (actions : list jsstring)
    (args : Arguments) : Task :=
  {| file := name; folder := Needs_Action; status := pending;
     approval_needed := false; approved := false;
     mcp_action := Some actions; details := args;
     execution_result := None; retry_count := 0; completed_at := None |}.

(** The same task once gated and approved by the human. *)
Definition approved_task (name : string) (actions : list jsstring)
    (args : Arguments) : Task :=
  edit (Set_approved true) (gate (new_task name actions args)).

Definition send_email_task : Task :=
  approved_task "task_send_client_summary.md" [lit "send_email"] email_arguments.

(** A scan against a server started with [live_env]. *)
Definition sample_scan : Vault -> Vault :=
  scan ascii_toUpperCase digits_parseInt live_env (Some gmail).

Definition send_email_request : CallToolRequest :=
  {| name := lit "send_email"; arguments := Some email_arguments |}.

(** A server started without any variable set. *)
Definition bare_main : list CallToolRequest -> IO (list CallToolResult) :=
  main ascii_toUpperCase digits_parseInt bare_env.

(** Two runs of the skill that have not looked at the file yet. *)
Definition two_runs (t : Task) (e : Effects) : Overlap :=
  {| first_run := Not_looked; second_run := Not_looked; shared := (t, e) |}.

Definition sample_interleave : list bool -> Overlap -> Overlap :=
  interleave ascii_toUpperCase digits_parseInt live_env (Some gmail).

Definition sample_run
    : list Step -> Task * Effects -> Task * Effects :=
  run ascii_toUpperCase digits_parseInt live_env (Some gmail).

Definition sample_execute
    : list jsstring -> Arguments -> Effects -> ExecutionResult * Effects :=
  execute ascii_toUpperCase digits_parseInt live_env (Some gmail).

Definition sample_handle_task : Task -> Effects -> Task * Effects :=
  handle_task ascii_toUpperCase digits_parseInt live_env (Some gmail).

Definition send_email_new_task : Task :=
  new_task "task_send_client_summary.md" [lit "send_email"] email_arguments.

(** The gate, the human's approval, one scan. *)
Definition approve_and_scan : list Step :=
  [Gate_step; Human_step (Set_approved true); Scan_step].

Definition linkedin_new_task (args : Arguments) : Task :=
  new_task "task_linkedin_consulting_services.md" [lit "post_linkedin"] args.

(** An approved file that names no action. *)
Definition approved_without_action : Task :=
  {| file := "task_review_notes.md"; folder := Pending_Approval;
     status := pending_approval; approval_needed := true; approved := true;
     mcp_action := None; details := no_arguments;
     execution_result := None; retry_count := 0; completed_at := None |}.

(** A vault with an approved file, an approved file without action and a
    file still waiting for its decision. *)
Definition mixed_vault : Vault :=
  {| tasks := [send_email_task; approved_without_action;
               gate send_email_new_task];
     effects := fresh_effects reachable |}.

End Samples.

(* ------------------------------------------------------------------------- *)
(** ** More vocabulary and samples *)

Module Coverage.
Import McpServer ApprovalHandler Vocabulary Samples.

(** Every code unit is white space. *)
Definition blank (s : jsstring) : bool := forallb isWhiteSpace s.

(** The [from] of the message: the parameter, or the configured sender. *)
Definition sender (env : Env) (params : Arguments) : jsstring :=
  match from params with Some f => f | None => DEFAULT_FROM env end.

(** The property the body goes under, and the one it does not. *)
Definition body_key (params : Arguments) : string :=
  match html params with Some true => "html" | _ => "text" end.
Definition other_body_key (params : Arguments) : string :=
  match html params with Some true => "text" | _ => "html" end.

Definition is_account_call (c : Call) : bool :=
  match c with CreateTestAccount => true | _ => false end.

Definition ugcPosts : jsstring := lit "https://api.linkedin.com/v2/ugcPosts".

Definition feed_update : jsstring := lit "https://www.linkedin.com/feed/update/".

(** [n] scans in a row. *)
Fixpoint scans (scan : Vault -> Vault) (n : nat) (v : Vault) : Vault :=
  match n with
  | O => v
  | S n' => scans scan n' (scan v)
  end.

(** An approved file a scan leaves in [/Pending_Approval/]: it names no
    action, or its execution failed. *)
Definition parked (t : Task) : Prop :=
  in_Pending_Approval t = true
  /\ approved t = true
  /\ (mcp_action t = None \/ status t = execution_failed).

(** A file before and after a scan: same name, actions and payload; the
    retry count has not gone down; the file is in its folder or has moved to
    [/Done/]; and a file that was at rest is unchanged. *)
Definition kept (t t' : Task) : Prop :=
  file t' = file t
  /\ mcp_action t' = mcp_action t
  /\ details t' = details t
  /\ (retry_count t <= retry_count t')%N
  /\ (folder t' = folder t \/ folder t' = Done)
  /\ (at_rest t = true -> t' = t).

(** The effects after are the effects before with rows put on top of the
    log, tool calls added at the end, and at most one external call per added
    tool call, none of them the creation of a test account. *)
Definition grows (e e' : Effects) : Prop :=
  exists rows requests added,
    System_Log e' = rows ++ System_Log e
    /\ mcp_calls e' = mcp_calls e ++ requests
    /\ calls (world e') = calls (world e) ++ added
    /\ outside (world e') = outside (world e)
    /\ (length added <= length requests)%nat
    /\ forallb (fun c => negb (is_account_call c)) added = true.

(** The external calls the test script makes before it verifies. *)
Definition before_verify (env : Env) : list Call :=
  if TestEmail.hasConfig env then [] else [CreateTestAccount].

(** The outside refuses the call [c] made as the [n]-th external call. *)
Definition refuses (o : Outside) (n : nat) (c : Call) : bool :=
  match c with
  | CreateTestAccount =>
      match createTestAccount o n with Throw _ => true | Normal _ => false end
  | SendMail t m =>
      match sendMail o n t m with Throw _ => true | Normal _ => false end
  | Verify t =>
      match verify o n t with Throw _ => true | Normal _ => false end
  | Fetch url init =>
      match fetch o n url init with Throw _ => true | Normal _ => false end
  end.

(** Every call of [made] went through, the first of them being the [n]-th
    external call. *)
Fixpoint all_answered (o : Outside) (n : nat) (made : list Call) : bool :=
  match made with
  | [] => true
  | c :: rest => negb (refuses o n c) && all_answered o (S n) rest
  end.

(** Sample inputs. *)
Definition blank_post : Arguments :=
  post_arguments [32; 10; 9; 160]%N None.

Definition html_email_arguments : Arguments :=
  {| to := Some (lit "a@b.com"); subject := Some (lit "S");
     body := Some (lit "<p>B</p>"); from := Some (lit "me@x.org");
     html := Some true; content := None; visibility := None |}.

Definition bad_send_email_task : Task :=
  approved_task "task.md" [lit "send_email"; lit "post_linkedin"]
    bad_email_arguments.

Definition sample_capture (n : N) : ActionLogger.Captured :=
  {| ActionLogger.tool_name := lit "send_email";
     ActionLogger.target := lit "user@example.com";
     ActionLogger.succeeded := true;
     ActionLogger.details := lit "MessageId: " ++ decimal n;
     ActionLogger.timestamp := lit "2026-02-05 22:" ++ decimal n |}.

Definition fresh_books : ActionLogger.Books :=
  {| ActionLogger.Recent_Actions := [ActionLogger.placeholder];
     ActionLogger.Activity_Log := [] |}.

(** SMTP user set, password not. *)
Definition user_only_env : Env :=
  {| SMTP_HOST := None; SMTP_PORT := None; SMTP_SECURE := None;
     SMTP_USER := Some (lit "me@gmail.com"); SMTP_PASS := None;
     SMTP_FROM := None; TEST_MODE_var := None;
     LINKEDIN_ACCESS_TOKEN := None; LINKEDIN_PERSON_URN := None |}.

Definition sample_toISOString (ms : N) : jsstring := decimal ms.

Definition long_preview_post : Arguments :=
  post_arguments (repeat 120%N 250) None.

Definition connections_post : Arguments :=
  post_arguments (lit "hello") (Some (lit "connections")).

(** A vault with one file waiting for a decision. *)
Definition waiting_vault : Vault :=
  {| tasks := [gate send_email_new_task]; effects := fresh_effects reachable |}.

(** A vault with one approved file, on a server whose first send fails. *)
Definition flaky_vault : Vault :=
  {| tasks := [send_email_task]; effects := fresh_effects flaky |}.

Definition twelve_calls : list ActionLogger.Captured :=
  map (fun n => sample_capture (N.of_nat n)) (seq 1 12).

End Coverage.

(* ------------------------------------------------------------------------- *)
(** ** The regular-expression matcher *)

Module RegexProperties.
Import McpServer Vocabulary.

Create HintDb regex.
#[local] Hint Constructors matches : regex.

Ltac inv H := inversion H; subst; clear H.

Lemma nullable_matches r : nullable r = true <-> matches r [].
Proof.
  induction r as [| |p|r1 IH1 r2 IH2|r1 IH1 r2 IH2|r IH]; cbn; split; intros H;
    try discriminate; auto with regex.
  - inv H.
  - inv H.
  - apply andb_true_iff in H as [H1 H2].
    change (@nil N) with (@nil N ++ []). apply M_Seq; [now apply IH1 | now apply IH2].
  - inv H.
    match goal with E : _ ++ _ = [] |- _ => apply app_eq_nil in E as [-> ->] end.
    apply andb_true_iff; split; [now apply IH1 | now apply IH2].
  - apply orb_true_iff in H as [H|H]; [apply M_Alt_l; now apply IH1 | apply M_Alt_r; now apply IH2].
  - apply orb_true_iff. inv H; [left; now apply IH1 | right; now apply IH2].
Qed.

Lemma star_cons r c s :
  matches (Star r) (c :: s) ->
  exists u v, s = u ++ v /\ matches r (c :: u) /\ matches (Star r) v.
Proof.
  intros H. remember (Star r) as r' eqn:Hr. remember (c :: s) as w eqn:Hw.
  revert Hr Hw.
  induction H as [| | | | | |r0 u v Hu _ Hv IHv]; intros Hr Hw; try discriminate.
  injection Hr as ->.
  destruct u as [|c' u'].
  - apply IHv; [reflexivity | exact Hw].
  - cbn in Hw. injection Hw as -> <-. exists u', v. auto.
Qed.

Lemma deriv_matches c r : forall s, matches (deriv c r) s <-> matches r (c :: s).
Proof.
  induction r as [| |p|r1 IH1 r2 IH2|r1 IH1 r2 IH2|r IH]; intros s; cbn.
  - split; intros H; inv H.
  - split; intros H; inv H.
  - destruct (p c) eqn:Hp; split; intros H; inv H.
    + now apply M_Class.
    + constructor.
    + congruence.
  - assert (Hfwd : matches (Seq (deriv c r1) r2) s -> matches (Seq r1 r2) (c :: s)).
    { intros H. inv H.
      match goal with Hu : matches (deriv c r1) ?u |- _ => apply IH1 in Hu end.
      match goal with |- matches _ (c :: ?u ++ ?v) =>
        change (c :: u ++ v) with ((c :: u) ++ v) end.
      now apply M_Seq. }
    assert (Hbwd : forall u v, u ++ v = c :: s -> matches r1 u -> matches r2 v ->
                   matches (Seq (deriv c r1) r2) s \/ (matches r1 [] /\ matches (deriv c r2) s)).
    { intros u v Huv Hu Hv. destruct u as [|c' u'].
      - cbn in Huv. subst v. right. split; [assumption | now apply IH2].
      - cbn in Huv. injection Huv as -> <-. left. apply M_Seq; [now apply IH1 | assumption]. }
    destruct (nullable r1) eqn:Hn.
    + split; intros H.
      * inv H; [now apply Hfwd|].
        change (c :: s) with ([] ++ c :: s).
        apply M_Seq; [now apply nullable_matches | now apply IH2].
      * inv H.
        match goal with
        | E : ?u ++ ?v = c :: s, Hu : matches r1 ?u, Hv : matches r2 ?v |- _ =>
            destruct (Hbwd _ _ E Hu Hv) as [H|[_ H]]
        end; [now apply M_Alt_l | now apply M_Alt_r].
    + split; intros H; [now apply Hfwd|].
      inv H.
      match goal with
      | E : ?u ++ ?v = c :: s, Hu : matches r1 ?u, Hv : matches r2 ?v |- _ =>
          destruct (Hbwd _ _ E Hu Hv) as [H|[H _]]
      end; [assumption|].
      apply nullable_matches in H. congruence.
  - split; intros H; inv H;
      solve [apply M_Alt_l; now apply IH1 | apply M_Alt_r; now apply IH2].
  - split; intros H.
    + inv H.
      match goal with Hu : matches (deriv c r) ?u |- _ => apply IH in Hu end.
      match goal with |- matches _ (c :: ?u ++ ?v) =>
        change (c :: u ++ v) with ((c :: u) ++ v) end.
      now apply M_Star_more.
    + apply star_cons in H as (u & v & -> & Hu & Hv).
      apply M_Seq; [now apply IH | assumption].
Qed.

(** The matcher decides matching. *)
Theorem test_matches r s : test r s = true <-> matches r s.
Proof.
  unfold test. revert r. induction s as [|c s IH]; intros r; cbn [fold_left].
  - apply nullable_matches.
  - rewrite IH. apply deriv_matches.
Qed.

Lemma star_class p v : matches (Star (Class p)) v <-> forallb p v = true.
Proof.
  split.
  - intros H. remember (Star (Class p)) as r eqn:Hr. revert Hr.
    induction H as [| | | | | |r0 u v Hu _ Hv IHv]; intros Hr; try discriminate.
    + reflexivity.
    + injection Hr as ->. inv Hu. cbn.
      match goal with Hc : p _ = true |- _ => rewrite Hc end. now apply IHv.
  - induction v as [|c v IH]; cbn; intros H; [constructor|].
    apply andb_true_iff in H as [Hc Hv].
    change (c :: v) with ([c] ++ v). apply M_Star_more; [now apply M_Class | now apply IH].
Qed.

Lemma plus_class p u :
  matches (Plus (Class p)) u <-> u <> [] /\ forallb p u = true.
Proof.
  unfold Plus. split.
  - intros H. inv H.
    match goal with Hc : matches (Class p) _ |- _ => inv Hc end.
    cbn. split; [discriminate|].
    match goal with Hc : p _ = true |- _ => rewrite Hc end.
    now apply star_class.
  - intros [Hne H]. destruct u as [|c u]; [now contradiction Hne|].
    cbn in H. apply andb_true_iff in H as [Hc Hu].
    change (c :: u) with ([c] ++ u). apply M_Seq; [now apply M_Class | now apply star_class].
Qed.

Lemma chr_matches (c : ascii) u :
  matches (Chr (String c EmptyString)) u <-> u = [N_of_ascii c].
Proof.
  unfold Chr. split.
  - intros H. inv H.
    match goal with Hc : _ = true |- _ =>
      cbn in Hc; rewrite orb_false_r in Hc; apply N.eqb_eq in Hc; now subst
    end.
  - intros ->. apply M_Class. cbn. now rewrite N.eqb_refl.
Qed.

(** [emailRegex] accepts exactly the strings [a@b.c] whose three parts are
    non-empty and free of white space and [@]. *)
Theorem emailRegex_shape s :
  test emailRegex s = true <->
  exists a b c,
    s = a ++ 64%N :: b ++ 46%N :: c
    /\ address_part a /\ address_part b /\ address_part c.
Proof.
  rewrite test_matches. unfold emailRegex, notSpaceAt, address_part. split.
  - intros H.
    repeat match goal with
           | Hs : matches (Seq _ _) _ |- _ => inv Hs
           end.
    repeat match goal with
           | Hp : matches (Plus _) _ |- _ => apply plus_class in Hp
           | Hc : matches (Chr _) _ |- _ => apply (chr_matches _) in Hc; subst
           end.
    do 3 eexists. split; [reflexivity|]. auto.
  - intros (a & b & c & -> & Ha & Hb & Hc).
    apply M_Seq; [now apply plus_class|].
    change (64%N :: b ++ 46%N :: c) with ([64%N] ++ b ++ [46%N] ++ c).
    apply M_Seq; [now apply (chr_matches "@"%char)|].
    apply M_Seq; [now apply plus_class|].
    apply M_Seq; [now apply (chr_matches "."%char) | now apply plus_class].
Qed.

End RegexProperties.

(* ------------------------------------------------------------------------- *)
(** ** Properties of the tool handlers and of the dispatcher *)

Module ServerProperties.
Import McpServer Vocabulary Samples.

Lemma includes_false_cons x a l :
  includes (a :: l) x = false -> str_eqb x a = false /\ includes l x = false.
Proof. unfold includes; cbn [existsb]; intros H; now apply orb_false_elim in H. Qed.

Lemma falsy_or_else x : falsy (Some (or_else x [])) = falsy x.
Proof. destruct x as [[|c s]|]; reflexivity. Qed.

Section Handlers.

Variable toUpperCase : jsstring -> jsstring.
Variable parseInt : jsstring -> value.
Variable env : Env.

(** *** [handlePostLinkedin], branch by branch *)

Lemma post_linkedin_content_fails params w :
  content_passes params = false ->
  exists msg, handlePostLinkedin toUpperCase env (Some params) w
              = (Normal (validation_failure msg), w).
Proof.
  unfold content_passes, handlePostLinkedin. intros H.
  destruct (falsy (content params)
            || (len (trim (str (content params))) =? 0)%N).
  - eexists; reflexivity.
  - cbn [negb andb] in H. apply negb_false_iff in H. rewrite H.
    eexists; reflexivity.
Qed.

Lemma post_linkedin_visibility_fails params w :
  content_passes params = true ->
  includes validVisibility (toUpperCase (requested_visibility params)) = false ->
  exists msg, handlePostLinkedin toUpperCase env (Some params) w
              = (Normal (validation_failure msg), w).
Proof.
  unfold content_passes, handlePostLinkedin, requested_visibility.
  intros H Hv. apply andb_true_iff in H as [H1 H2].
  apply negb_true_iff in H1, H2. rewrite H1, H2, Hv.
  eexists; reflexivity.
Qed.

Lemma post_linkedin_test_mode params w :
  content_passes params = true ->
  includes validVisibility (toUpperCase (requested_visibility params)) = true ->
  LINKEDIN_TEST_MODE env = true ->
  exists r,
    handlePostLinkedin toUpperCase env (Some params) w = (Normal r, w)
    /\ get "success" r = VBool true
    /\ get "mode" r = VStr (lit "test")
    /\ get "postId" r
       = VStr (lit "demo-" ++ decimal (Date_now (outside w) (length (calls w))))
    /\ get "visibility" r = VStr (toUpperCase (requested_visibility params))
    /\ keys r = ["success"; "mode"; "message"; "postId"; "postUrl"; "content";
                 "visibility"; "characterCount"; "note"].
Proof.
  unfold content_passes, handlePostLinkedin, requested_visibility.
  intros H Hv Ht. apply andb_true_iff in H as [H1 H2].
  apply negb_true_iff in H1, H2. rewrite H1, H2, Hv, Ht.
  eexists. split; [reflexivity|]. repeat split.
Qed.

Lemma post_linkedin_live params w :
  content_passes params = true ->
  includes validVisibility (toUpperCase (requested_visibility params)) = true ->
  LINKEDIN_TEST_MODE env = false ->
  exists r url init,
    handlePostLinkedin toUpperCase env (Some params) w
      = (Normal r, {| outside := outside w; calls := calls w ++ [Fetch url init] |})
    /\ (get "success" r = VBool false
        \/ get "success" r = VBool true
           /\ get "mode" r = VStr (lit "live")
           /\ get "visibility" r = VStr (toUpperCase (requested_visibility params))
           /\ keys r = live_post_keys).
Proof.
  unfold content_passes, handlePostLinkedin, requested_visibility.
  intros H Hv Ht. apply andb_true_iff in H as [H1 H2].
  apply negb_true_iff in H1, H2. rewrite H1, H2, Hv, Ht.
  cbn [negb]. unfold try_catch, bind, external, settle, ret.
  match goal with |- context [fetch ?o ?n ?u ?i] =>
    destruct (fetch o n u i) as [response|error] end.
  - destruct (ok response); cbn [negb].
    + destruct (json_id response) as [id|error];
        do 3 eexists; (split; [reflexivity|]);
        [right; repeat split | left; reflexivity].
    + destruct (text response) as [errorBody|error];
        do 3 eexists; (split; [reflexivity|]); left; reflexivity.
  - do 3 eexists; (split; [reflexivity|]); left; reflexivity.
Qed.

Lemma post_linkedin_live_accepted params w :
  content_passes params = true ->
  includes validVisibility (toUpperCase (requested_visibility params)) = true ->
  LINKEDIN_TEST_MODE env = false ->
  exists r url init,
    handlePostLinkedin toUpperCase env (Some params) w
      = (Normal r, {| outside := outside w; calls := calls w ++ [Fetch url init] |})
    /\ (get "success" r = VBool true ->
        get "visibility" r = VStr (toUpperCase (requested_visibility params)))
    /\ (forall response id,
          fetch (outside w) (length (calls w)) url init = Normal response ->
          ok response = true ->
          json_id response = Normal id ->
          get "success" r = VBool true
          /\ get "visibility" r
             = VStr (toUpperCase (requested_visibility params))).
Proof.
  unfold content_passes, handlePostLinkedin, requested_visibility.
  intros H Hv Ht. apply andb_true_iff in H as [H1 H2].
  apply negb_true_iff in H1, H2. rewrite H1, H2, Hv, Ht.
  cbn [negb]. unfold try_catch, bind, external, settle, ret.
  match goal with |- context [fetch ?o ?n ?u ?i] =>
    destruct (fetch o n u i) as [response|error] eqn:Hfetch end.
  - destruct (ok response) eqn:Hok; cbn [negb].
    + destruct (json_id response) as [id|error] eqn:Hid;
        do 3 eexists; (split; [reflexivity|]); rewrite Hfetch.
      * split; [reflexivity|]. intros; split; reflexivity.
      * split; [discriminate|]. intros response' id' E _ Hid'.
        injection E as <-. congruence.
    + destruct (text response) as [errorBody|error];
        do 3 eexists; (split; [reflexivity|]); rewrite Hfetch;
        (split; [discriminate|]); intros response' id' E Hok' _;
        injection E as <-; congruence.
  - do 3 eexists. split; [reflexivity|]. rewrite Hfetch.
    split; [discriminate|]. intros response' id' E. discriminate E.
Qed.

(** C3.  A [post_linkedin] call whose content is longer than 3000 code units
    is rejected by validation: the handler returns a failure result that
    holds no [postId], and no external call has been made (the record of
    external calls is unchanged). *)
Theorem post_linkedin_rejects_long_content :
  forall (params : Arguments) (c : jsstring) (w : World),
    content params = Some c ->
    (3000 < len c)%N ->
    exists msg,
      handlePostLinkedin toUpperCase env (Some params) w
        = (Normal (validation_failure msg), w)
      /\ get "success" (validation_failure msg) = VBool false
      /\ has_key "postId" (validation_failure msg) = false.
Proof.
  intros params c w Hc Hlen.
  destruct (post_linkedin_content_fails params w) as (msg & Hmsg).
  - unfold content_passes. rewrite Hc. cbn [str].
    apply N.ltb_lt in Hlen. rewrite Hlen. apply andb_false_r.
  - exists msg. repeat split. exact Hmsg.
Qed.

(** *** [handleSendEmail], branch by branch *)

Variable transporter : option SmtpOptions.

Lemma send_email_validation_fails params w :
  email_passes params = false ->
  exists msg,
    handleSendEmail parseInt env transporter (Some params) w
      = (Normal (validation_failure msg), w).
Proof.
  unfold email_passes, handleSendEmail. intros H.
  destruct (falsy (to params) || falsy (subject params) || falsy (body params)).
  - eexists; reflexivity.
  - cbn [negb andb] in H. rewrite H. eexists; reflexivity.
Qed.

Lemma send_email_mock params w :
  email_passes params = true ->
  exists r,
    handleSendEmail parseInt env None (Some params) w = (Normal r, w)
    /\ get "success" r = VBool true
    /\ get "mode" r = VStr (lit "mock")
    /\ keys r = mock_keys.
Proof.
  unfold email_passes, handleSendEmail. intros H.
  apply andb_true_iff in H as [H1 H2]. apply negb_true_iff in H1.
  rewrite H1, H2. eexists; repeat split.
Qed.

Lemma send_email_through params t w :
  email_passes params = true ->
  exists r m,
    handleSendEmail parseInt env (Some t) (Some params) w
      = (Normal r, {| outside := outside w; calls := calls w ++ [SendMail t m] |})
    /\ match sendMail (outside w) (length (calls w)) t m with
       | Normal info =>
           get "success" r = VBool true
           /\ get "messageId" r = opt_str (messageId info)
           /\ get "to" r = VStr (str (to params))
           /\ get "subject" r = VStr (str (subject params))
           /\ get "mode" r = VUndefined
           /\ firstn 4 (keys r) = sent_keys
       | Throw error =>
           get "success" r = VBool false
           /\ get "error" r = VStr (message error)
       end.
Proof.
  unfold email_passes, handleSendEmail. intros H.
  apply andb_true_iff in H as [H1 H2]. apply negb_true_iff in H1.
  rewrite H1, H2. cbn [negb].
  unfold try_catch, bind, external, ret.
  match goal with |- context [sendMail ?o ?n ?t ?m] =>
    exists (match sendMail o n t m with
            | Normal info =>
                VObj ([("success", VBool true);
                       ("messageId", opt_str (messageId info));
                       ("to", VStr (str (to params)));
                       ("subject", VStr (str (subject params)))]
                      ++ (if negb (falsy (messageId info)) && TEST_MODE parseInt env
                          then if negb (falsy (getTestMessageUrl info))
                               then [("previewUrl", VStr (str (getTestMessageUrl info)))]
                               else []
                          else []))
            | Throw error =>
                VObj [("success", VBool false);
                      ("error", VStr (message error));
                      ("code", opt_str (code error))]
            end), m;
    destruct (sendMail o n t m) as [info|error] end.
  - destruct (negb (falsy (messageId info)) && TEST_MODE parseInt env);
      [destruct (negb (falsy (getTestMessageUrl info)))|];
      (split; [reflexivity | repeat split]).
  - split; [reflexivity | repeat split].
Qed.

(** C4.  A [send_email] call in which [to], [subject] or [body] is missing,
    or whose [to] does not match the address pattern, returns a failure
    result of the validation kind ([success: false] with an [error] text and
    nothing else), and no send has been attempted: the record of external
    calls is unchanged. *)
Theorem send_email_rejects_invalid :
  forall (params : Arguments) (w : World),
    to params = None \/ subject params = None \/ body params = None
    \/ (exists t, to params = Some t /\ test emailRegex t = false) ->
    exists msg,
      handleSendEmail parseInt env transporter (Some params) w
        = (Normal (validation_failure msg), w).
Proof.
  intros params w H.
  apply send_email_validation_fails. unfold email_passes.
  destruct H as [H | [H | [H | (t & H & Htest)]]]; rewrite H; cbn [falsy str].
  - reflexivity.
  - rewrite orb_true_r. reflexivity.
  - rewrite !orb_true_r. reflexivity.
  - rewrite Htest. apply andb_false_r.
Qed.

(** *** The transporter the server starts with *)

Lemma initializeTransporter_cases w :
  exists tr w',
    initializeTransporter parseInt env w = (Normal tr, w')
    /\ (tr = None <->
        falsy (SMTP_USER env) = true
        /\ exists error,
             createTestAccount (outside w) (length (calls w)) = Throw error).
Proof.
  unfold initializeTransporter, TEST_MODE, SMTP_CONFIG; cbn [auth_user].
  rewrite falsy_or_else.
  destruct (falsy (SMTP_USER env)) eqn:Hu.
  - rewrite orb_true_r. cbn [andb].
    unfold try_catch, bind, external, ret.
    destruct (createTestAccount (outside w) (length (calls w))) as [a|e].
    + do 2 eexists; split; [reflexivity|]. split; [discriminate|].
      intros (_ & e & He); discriminate He.
    + do 2 eexists; split; [reflexivity|]. split; eauto.
  - rewrite andb_false_r. do 2 eexists; split; [reflexivity|].
    split; [discriminate | intros (H & _); discriminate H].
Qed.

Lemma linkedin_test_mode_of_absence :
  falsy (LINKEDIN_ACCESS_TOKEN env) = true
  \/ falsy (LINKEDIN_PERSON_URN env) = true ->
  LINKEDIN_TEST_MODE env = true.
Proof.
  unfold LINKEDIN_TEST_MODE, LINKEDIN_accessToken, LINKEDIN_personUrn.
  rewrite !falsy_or_else. intros [-> | ->]; [reflexivity | apply orb_true_r].
Qed.

(** C5 (as amended).  [post_linkedin]: while the access token or the person
    URN is absent, a call that passes validation makes no external call and
    returns a success result marked [mode: 'test'], with the synthetic
    identifier [demo-<clock>] and every property of the live success result.
    [send_email]: a server without a transporter makes no external call and
    returns a success result marked [mode: 'mock'] with the properties
    [success, mode, message, details]; the server is without a transporter
    exactly when the SMTP user is absent and the test account could not be
    created at start-up. *)
Theorem simulated_mode_without_credentials :
  forall (params : Arguments) (w : World),
    (falsy (LINKEDIN_ACCESS_TOKEN env) = true
     \/ falsy (LINKEDIN_PERSON_URN env) = true ->
     content_passes params = true ->
     includes validVisibility (toUpperCase (requested_visibility params)) = true ->
     exists r,
       handlePostLinkedin toUpperCase env (Some params) w = (Normal r, w)
       /\ get "success" r = VBool true
       /\ get "mode" r = VStr (lit "test")
       /\ get "postId" r
          = VStr (lit "demo-" ++ decimal (Date_now (outside w) (length (calls w))))
       /\ incl live_post_keys (keys r))
    /\ (email_passes params = true ->
        exists r,
          handleSendEmail parseInt env None (Some params) w = (Normal r, w)
          /\ get "success" r = VBool true
          /\ get "mode" r = VStr (lit "mock")
          /\ keys r = mock_keys)
    /\ (exists tr w',
          initializeTransporter parseInt env w = (Normal tr, w')
          /\ (tr = None <->
              falsy (SMTP_USER env) = true
              /\ exists error,
                   createTestAccount (outside w) (length (calls w))
                   = Throw error)).
Proof.
  intros params w. split; [|split].
  - intros Habs Hc Hv.
    destruct (post_linkedin_test_mode params w Hc Hv
                (linkedin_test_mode_of_absence Habs))
      as (r & Hr & Hs & Hm & Hid & _ & Hk).
    exists r. repeat split; try assumption.
    rewrite Hk. unfold live_post_keys. intros k Hin. cbn in Hin |- *. tauto.
  - apply send_email_mock.
  - apply initializeTransporter_cases.
Qed.

(** C6 (as amended).  The requested visibility ([PUBLIC] when omitted) is
    upper-cased and looked up in [PUBLIC, CONNECTIONS].  When the upper-cased
    form is not in the list the call returns a failure result and makes no
    external call.  When it is in the list and the content passes its
    checks, the call succeeds and carries the upper-cased form as
    [visibility]: always in test mode, and in live mode whenever the one
    request made is answered ok with a readable body.  Every success result
    comes from a visibility whose upper-cased form is in the list and
    carries that form.  And a call without [visibility] is the call with
    [visibility: 'PUBLIC']. *)
Theorem visibility_is_checked_then_normalized :
  forall (params : Arguments) (w : World),
    let vis := toUpperCase (requested_visibility params) in
    (exists r w',
       handlePostLinkedin toUpperCase env (Some params) w = (Normal r, w')
       /\ (includes validVisibility vis = false ->
           get "success" r = VBool false /\ w' = w)
       /\ (get "success" r = VBool true ->
           includes validVisibility vis = true
           /\ get "visibility" r = VStr vis)
       /\ (includes validVisibility vis = true ->
           content_passes params = true ->
           if LINKEDIN_TEST_MODE env then
             get "success" r = VBool true
             /\ get "visibility" r = VStr vis
             /\ w' = w
           else
             exists url init,
               calls w' = calls w ++ [Fetch url init]
               /\ forall response id,
                    fetch (outside w) (length (calls w)) url init
                    = Normal response ->
                    ok response = true ->
                    json_id response = Normal id ->
                    get "success" r = VBool true
                    /\ get "visibility" r = VStr vis))
    /\ handlePostLinkedin toUpperCase env (Some (with_visibility params None)) w
       = handlePostLinkedin toUpperCase env
           (Some (with_visibility params (Some (lit "PUBLIC")))) w.
Proof.
  intros params w vis. split; [|reflexivity]. subst vis.
  destruct (content_passes params) eqn:Hc.
  - destruct (includes validVisibility
                (toUpperCase (requested_visibility params))) eqn:Hv.
    + destruct (LINKEDIN_TEST_MODE env) eqn:Ht.
      * destruct (post_linkedin_test_mode params w Hc Hv Ht)
          as (r & -> & Hs & _ & _ & Hvis & _).
        do 2 eexists; split; [reflexivity|]. split; [discriminate|].
        split; [auto|]. intros _ _. auto.
      * destruct (post_linkedin_live_accepted params w Hc Hv Ht)
          as (r & url & init & -> & Hvis & Hanswer).
        do 2 eexists; split; [reflexivity|]. split; [discriminate|].
        split; [auto|]. intros _ _. exists url, init.
        split; [reflexivity | exact Hanswer].
    + destruct (post_linkedin_visibility_fails params w Hc Hv) as (msg & ->).
      do 2 eexists; split; [reflexivity|]. split; [auto|].
      split; [intros H; discriminate H | intros H; discriminate H].
  - destruct (post_linkedin_content_fails params w Hc) as (msg & ->).
    do 2 eexists; split; [reflexivity|]. split; [auto|].
    split; [intros H; discriminate H | intros _ H; discriminate H].
Qed.

(** C7 (as amended).  A successful [send_email] call made through a
    transporter has sent exactly one message and returns
    [success, messageId, to, subject] (then [previewUrl], if any), where
    [messageId] is the identifier the transport reported for the message; a
    successful call on a server without a transporter returns the mock
    result [success, mode, message, details], without an identifier, and
    sends nothing. *)
Theorem successful_send_reports_message_id :
  forall (params : Arguments) (w w' : World) (r : value),
    handleSendEmail parseInt env transporter (Some params) w = (Normal r, w') ->
    get "success" r = VBool true ->
    match transporter with
    | Some t =>
        exists info m,
          sendMail (outside w) (length (calls w)) t m = Normal info
          /\ calls w' = calls w ++ [SendMail t m]
          /\ get "messageId" r = opt_str (messageId info)
          /\ firstn 4 (keys r) = sent_keys
    | None => keys r = mock_keys /\ has_key "messageId" r = false /\ w' = w
    end.
Proof.
  intros params w w' r Hrun Hs.
  destruct (email_passes params) eqn:Hp.
  - destruct transporter as [t|].
    + destruct (send_email_through params t w Hp) as (r0 & m & Hr0 & Hcase).
      rewrite Hrun in Hr0. injection Hr0 as <- ->.
      destruct (sendMail (outside w) (length (calls w)) t m)
        as [info|error] eqn:Hsent.
      * destruct Hcase as (_ & Hid & _ & _ & _ & Hk).
        exists info, m. repeat split; (assumption || reflexivity).
      * destruct Hcase as (Hf & _). rewrite Hf in Hs. discriminate Hs.
    + destruct (send_email_mock params w Hp) as (r0 & Hr0 & _ & _ & Hk).
      rewrite Hrun in Hr0. injection Hr0 as <- ->.
      repeat split; try assumption.
      destruct r as [| | | | | |props]; try discriminate Hk.
      cbn in Hk |- *. 
      destruct props as [|[k1 v1] [|[k2 v2] [|[k3 v3] [|[k4 v4] [|]]]]];
        try discriminate Hk.
      injection Hk as -> -> -> ->. reflexivity.
  - destruct (send_email_validation_fails params w Hp) as (msg & Hmsg).
    rewrite Hrun in Hmsg. injection Hmsg as -> _. discriminate Hs.
Qed.

End Handlers.

(** *** The dispatcher *)

(** C8.  A tool call whose name is not one of [TOOLS] is answered with the
    unknown-tool error result: one text item holding
    [{error: 'Unknown tool: <name>'}], with [isError: true].  This holds
    whatever the three handlers are and whatever the arguments: no handler
    takes part, and the record of external calls is unchanged. *)
Theorem unknown_tool_is_an_error :
  forall (h : Handlers) (request : CallToolRequest) (w : World),
    includes TOOLS (name request) = false ->
    exists res,
      callToolWith h request w = (Normal res, w)
      /\ result_content res
         = [{| type := lit "text";
               text_json :=
                 VObj [("error", VStr (lit "Unknown tool: " ++ name request))] |}]
      /\ isError res = Some true
      /\ selected h request = None.
Proof.
  intros h request w H.
  unfold TOOLS in H.
  apply includes_false_cons in H as [H1 H].
  apply includes_false_cons in H as [H2 H].
  apply includes_false_cons in H as [H3 _].
  eexists. split; [|split; [|split]].
  - unfold callToolWith, try_catch. rewrite H1, H2, H3. reflexivity.
  - reflexivity.
  - reflexivity.
  - unfold selected. rewrite H1, H2, H3. reflexivity.
Qed.

Lemma callToolWith_selected h request w :
  callToolWith h request w =
    match selected h request with
    | Some handler =>
        match handler w with
        | (Normal result, w') =>
            (Normal {| result_content := [text_of result]; isError := None |}, w')
        | (Throw error, w') => (Normal (error_result (message error)), w')
        end
    | None =>
        (Normal (error_result (lit "Unknown tool: " ++ name request)), w)
    end.
Proof.
  unfold callToolWith, selected, try_catch, bind, ret.
  destruct (str_eqb (name request) (lit "send_email")).
  { destruct (on_send_email h (arguments request) w) as [[r|e] w']; reflexivity. }
  destruct (str_eqb (name request) (lit "post_linkedin")).
  { destruct (on_post_linkedin h (arguments request) w) as [[r|e] w']; reflexivity. }
  destruct (str_eqb (name request) (lit "check_email_config")).
  { destruct (on_check_email_config h w) as [[r|e] w']; reflexivity. }
  reflexivity.
Qed.

(** C10.  The request handler always completes normally with a result
    object, whatever the handlers do; when the selected handler throws, the
    result is one text item holding [{error: <the thrown error's message>}],
    with [isError: true], and what the handler did to the outside before it
    threw stays done. *)
Theorem call_tool_never_throws :
  forall (h : Handlers) (request : CallToolRequest) (w : World),
    (exists res w', callToolWith h request w = (Normal res, w'))
    /\ (forall handler error w',
          selected h request = Some handler ->
          handler w = (Throw error, w') ->
          exists res,
            callToolWith h request w = (Normal res, w')
            /\ result_content res
               = [{| type := lit "text";
                     text_json := VObj [("error", VStr (message error))] |}]
            /\ isError res = Some true).
Proof.
  intros h request w. rewrite callToolWith_selected. split.
  - destruct (selected h request) as [handler|]; [|eauto].
    destruct (handler w) as [[r|e] w']; eauto.
  - intros handler error w' -> ->. eexists. repeat split.
Qed.

(** *** Concrete runs *)

Lemma post_linkedin_rejects_long_content_witness :
  content long_post = Some (repeat 120%N 3500)
  /\ (3000 < len (repeat 120%N 3500))%N
  /\ exists msg,
       handlePostLinkedin ascii_toUpperCase bare_env (Some long_post)
         (fresh_world reachable)
       = (Normal (validation_failure msg), fresh_world reachable)
       /\ get "success" (validation_failure msg) = VBool false
       /\ has_key "postId" (validation_failure msg) = false.
Proof.
  split; [reflexivity|]. split; [vm_compute; reflexivity|].
  apply (post_linkedin_rejects_long_content ascii_toUpperCase bare_env
           long_post (repeat 120%N 3500) (fresh_world reachable));
    [reflexivity | vm_compute; reflexivity].
Defined.

Lemma send_email_rejects_invalid_witness :
  (exists t, to bad_email_arguments = Some t /\ test emailRegex t = false)
  /\ exists msg,
       handleSendEmail digits_parseInt bare_env (Some gmail)
         (Some bad_email_arguments) (fresh_world reachable)
       = (Normal (validation_failure msg), fresh_world reachable).
Proof.
  assert (H : exists t, to bad_email_arguments = Some t
                        /\ test emailRegex t = false).
  { exists (lit "not-an-email"). split; [reflexivity | vm_compute; reflexivity]. }
  split; [exact H|].
  apply (send_email_rejects_invalid digits_parseInt bare_env (Some gmail)
           bad_email_arguments (fresh_world reachable)).
  right; right; right. exact H.
Defined.

(** C5, counterexample.  No SMTP user is set, the test account is created at
    start-up, and the [send_email] call goes out through it: two external
    calls are made, and the success result carries no [mode]. *)
Lemma absent_smtp_user_still_sends :
  falsy (SMTP_USER bare_env) = true
  /\ exists r t m,
       bare_main [send_email_request] (fresh_world reachable)
       = (Normal [r],
          {| outside := reachable;
             calls := [CreateTestAccount; SendMail t m] |})
       /\ get "success" (payload r) = VBool true
       /\ has_key "mode" (payload r) = false.
Proof.
  split; [reflexivity|].
  do 3 eexists. split; [vm_compute; reflexivity|]. split; reflexivity.
Qed.

Lemma simulated_mode_without_credentials_witness :
  (exists r,
     handlePostLinkedin ascii_toUpperCase bare_env
       (Some (post_arguments (lit "hello") None)) (fresh_world reachable)
     = (Normal r, fresh_world reachable)
     /\ get "mode" r = VStr (lit "test")
     /\ get "postId" r = VStr (lit "demo-1770327000000"))
  /\ (exists r,
        handleSendEmail digits_parseInt bare_env None (Some email_arguments)
          (fresh_world reachable)
        = (Normal r, fresh_world reachable)
        /\ get "mode" r = VStr (lit "mock")).
Proof.
  destruct (simulated_mode_without_credentials ascii_toUpperCase
              digits_parseInt bare_env
              (post_arguments (lit "hello") None) (fresh_world reachable))
    as (Hpost & _ & _).
  destruct (simulated_mode_without_credentials ascii_toUpperCase
              digits_parseInt bare_env
              email_arguments (fresh_world reachable))
    as (_ & Hmail & _).
  split.
  - destruct Hpost as (r & Hr & _ & Hm & Hid & _);
      [left; reflexivity | reflexivity | reflexivity |].
    exists r. split; [exact Hr|]. split; [exact Hm | exact Hid].
  - destruct Hmail as (r & Hr & _ & Hm & _); [reflexivity|].
    exists r. split; [exact Hr | exact Hm].
Defined.

(** C6, counterexample.  The requested visibility upper-cases to
    [CONNECTIONS] and the content is valid, but the post is refused upstream:
    the result is a failure and carries no [visibility]. *)
Lemma valid_visibility_lost_on_upstream_failure :
  let params := post_arguments (lit "hello") (Some (lit "connections")) in
  includes validVisibility (ascii_toUpperCase (requested_visibility params)) = true
  /\ content_passes params = true
  /\ exists r w',
       handlePostLinkedin ascii_toUpperCase live_env (Some params)
         (fresh_world flaky) = (Normal r, w')
       /\ get "success" r = VBool false
       /\ has_key "visibility" r = false.
Proof.
  split; [vm_compute; reflexivity|]. split; [vm_compute; reflexivity|].
  do 2 eexists. split; [vm_compute; reflexivity|]. split; reflexivity.
Qed.

Lemma visibility_is_checked_then_normalized_witness :
  let params := post_arguments (lit "hello") (Some (lit "connections")) in
  (exists r,
     handlePostLinkedin ascii_toUpperCase bare_env (Some params)
       (fresh_world reachable)
     = (Normal r, fresh_world reachable)
     /\ get "success" r = VBool true
     /\ get "visibility" r = VStr (lit "CONNECTIONS"))
  /\ (exists r w',
        handlePostLinkedin ascii_toUpperCase live_env (Some params)
          (fresh_world reachable)
        = (Normal r, w')
        /\ length (calls w') = 1
        /\ get "success" r = VBool true
        /\ get "visibility" r = VStr (lit "CONNECTIONS")).
Proof.
  cbv zeta. split.
  - destruct (visibility_is_checked_then_normalized ascii_toUpperCase bare_env
                (post_arguments (lit "hello") (Some (lit "connections")))
                (fresh_world reachable))
      as ((r & w' & Hr & _ & _ & Haccept) & _).
    specialize (Haccept eq_refl eq_refl).
    change (LINKEDIN_TEST_MODE bare_env) with true in Haccept.
    destruct Haccept as (Hs & Hvis & ->).
    exists r. split; [exact Hr|]. split; [exact Hs | exact Hvis].
  - destruct (visibility_is_checked_then_normalized ascii_toUpperCase live_env
                (post_arguments (lit "hello") (Some (lit "connections")))
                (fresh_world reachable))
      as ((r & w' & Hr & _ & _ & Haccept) & _).
    specialize (Haccept eq_refl eq_refl).
    change (LINKEDIN_TEST_MODE live_env) with false in Haccept.
    destruct Haccept as (url & init & Hcalls & Hanswer).
    destruct (Hanswer _ _ eq_refl eq_refl eq_refl) as (Hs & Hvis).
    exists r, w'. split; [exact Hr|].
    split; [rewrite Hcalls; reflexivity|].
    split; [exact Hs | exact Hvis].
Defined.

(** C7, counterexample.  No variable is set and the test account cannot be
    created: the server has no transporter, and the [send_email] call
    succeeds with a result that holds no [messageId]. *)
Lemma mock_success_has_no_message_id :
  exists r w',
    bare_main [send_email_request] (fresh_world flaky) = (Normal [r], w')
    /\ isError r = None
    /\ get "success" (payload r) = VBool true
    /\ has_key "messageId" (payload r) = false
    /\ keys (payload r) = mock_keys.
Proof.
  do 2 eexists. split; [vm_compute; reflexivity|]. repeat split.
Qed.

Lemma successful_send_reports_message_id_witness :
  exists r w',
    handleSendEmail digits_parseInt live_env (Some gmail) (Some email_arguments)
      (fresh_world reachable) = (Normal r, w')
    /\ get "success" r = VBool true
    /\ exists info m,
         sendMail reachable 0 gmail m = Normal info
         /\ calls w' = [SendMail gmail m]
         /\ get "messageId" r = opt_str (messageId info)
         /\ firstn 4 (keys r) = sent_keys.
Proof.
  do 2 eexists. split; [vm_compute; reflexivity|]. split; [reflexivity|].
  refine (successful_send_reports_message_id digits_parseInt live_env
            (Some gmail) email_arguments (fresh_world reachable) _ _ _ _);
    [vm_compute; reflexivity | reflexivity].
Defined.

Lemma unknown_tool_is_an_error_witness :
  let request := {| name := lit "delete_everything"; arguments := None |} in
  includes TOOLS (name request) = false
  /\ exists res,
       callTool ascii_toUpperCase digits_parseInt bare_env None request
         (fresh_world reachable)
       = (Normal res, fresh_world reachable)
       /\ result_content res
          = [{| type := lit "text";
                text_json :=
                  VObj [("error",
                         VStr (lit "Unknown tool: delete_everything"))] |}]
       /\ isError res = Some true.
Proof.
  split; [vm_compute; reflexivity|].
  destruct (unknown_tool_is_an_error
              (handlers ascii_toUpperCase digits_parseInt bare_env None)
              {| name := lit "delete_everything"; arguments := None |}
              (fresh_world reachable))
    as (res & Hres & Hcontent & Herr & _); [vm_compute; reflexivity|].
  exists res. split; [exact Hres|]. split; [exact Hcontent | exact Herr].
Defined.

Lemma call_tool_never_throws_witness :
  let h := handlers ascii_toUpperCase digits_parseInt bare_env None in
  let request := {| name := lit "send_email"; arguments := None |} in
  selected h request = Some (on_send_email h None)
  /\ (exists error,
        on_send_email h None (fresh_world reachable)
        = (Throw error, fresh_world reachable)
        /\ exists res,
             callToolWith h request (fresh_world reachable)
             = (Normal res, fresh_world reachable)
             /\ result_content res
                = [{| type := lit "text";
                      text_json := VObj [("error", VStr (message error))] |}]
             /\ isError res = Some true).
Proof.
  split; [reflexivity|].
  eexists. split; [reflexivity|].
  exact (proj2 (call_tool_never_throws
                  (handlers ascii_toUpperCase digits_parseInt bare_env None)
                  {| name := lit "send_email"; arguments := None |}
                  (fresh_world reachable))
           _ _ _ eq_refl eq_refl).
Defined.

End ServerProperties.

(* ------------------------------------------------------------------------- *)
(** ** Properties of the approval handler *)

Module ApprovalProperties.
Import McpServer ApprovalHandler Vocabulary Samples.

Section Skill.

Variable toUpperCase : jsstring -> jsstring.
Variable parseInt : jsstring -> value.
Variable env : Env.
Variable transporter : option SmtpOptions.

Local Abbreviation call_mcp := (call_mcp toUpperCase parseInt env transporter).
Local Abbreviation execute := (execute toUpperCase parseInt env transporter).
Local Abbreviation handle_approved :=
  (handle_approved toUpperCase parseInt env transporter).
Local Abbreviation handle_task := (handle_task toUpperCase parseInt env transporter).
Local Abbreviation scan_files := (scan_files toUpperCase parseInt env transporter).
Local Abbreviation scan := (scan toUpperCase parseInt env transporter).
Local Abbreviation step := (step toUpperCase parseInt env transporter).
Local Abbreviation run := (run toUpperCase parseInt env transporter).
Local Abbreviation advance := (advance toUpperCase parseInt env transporter).
Local Abbreviation interleave := (interleave toUpperCase parseInt env transporter).

(** *** The tool calls of an execution *)

Lemma call_mcp_calls tool args e :
  mcp_calls (snd (call_mcp tool args e))
  = mcp_calls e ++ [request_for tool args].
Proof.
  unfold ApprovalHandler.call_mcp.
  destruct (callTool _ _ _ _ _ _) as [r w]. reflexivity.
Qed.

Lemma execute_calls actions args :
  forall e,
    exists invoked,
      mcp_calls (snd (execute actions args e))
      = mcp_calls e ++ map (fun a => request_for a args) invoked
      /\ match fst (execute actions args e) with
         | Succeeded _ => invoked = actions
         | Failed tool _ =>
             exists done rest,
               actions = done ++ tool :: rest /\ invoked = done ++ [tool]
         end.
Proof.
  induction actions as [|tool rest IH]; intros e.
  - exists []. cbn. split; [now rewrite app_nil_r | reflexivity].
  - cbn [ApprovalHandler.execute].
    pose proof (call_mcp_calls tool args e) as Hcall.
    destruct (call_mcp tool args e) as [r e1]. cbn [snd] in Hcall.
    destruct (failure r) as [detail|].
    + exists [tool]. cbn [fst snd map]. split; [exact Hcall|].
      exists [], rest. split; reflexivity.
    + specialize (IH (log (MCP_Action tool (result_of r)) e1)).
      destruct IH as (invoked & Hcalls & Hout).
      destruct (execute rest args (log (MCP_Action tool (result_of r)) e1))
        as [o e2].
      cbn [fst snd] in Hcalls, Hout.
      exists (tool :: invoked).
      assert (Hc : mcp_calls e2
                   = mcp_calls e
                     ++ map (fun a => request_for a args) (tool :: invoked)).
      { rewrite Hcalls. cbn [log mcp_calls]. rewrite Hcall.
        rewrite <- app_assoc. reflexivity. }
      destruct o as [results|t d]; cbn [fst snd]; (split; [exact Hc|]).
      * now subst invoked.
      * destruct Hout as (done & rest' & -> & ->).
        exists (tool :: done), rest'. split; reflexivity.
Qed.

Lemma unapproved_task_makes_no_call t e :
  approved t = false ->
  mcp_calls (snd (handle_task t e)) = mcp_calls e.
Proof.
  unfold ApprovalHandler.handle_task, classify. intros ->.
  destruct (is_rejected (status t)); [reflexivity|].
  destruct (is_pending_approval (status t)); reflexivity.
Qed.

Lemma run_cons s steps st : run (s :: steps) st = run steps (step s st).
Proof. reflexivity. Qed.

Lemma gate_of_sensitive t :
  folder t = Needs_Action ->
  existsb alwaysRequiresApproval (actions_of t) = true ->
  status (gate t) = pending_approval
  /\ folder (gate t) = Pending_Approval
  /\ approved (gate t) = approved t.
Proof.
  unfold gate, approvalRequired. intros -> ->. repeat split.
Qed.

(** C1.  Take a task of [/Needs_Action/] one of whose actions always
    requires approval, and any sequence of gate steps, human edits and scans.
    (a) Whatever the payload and the originator's [approval_needed], the gate
    requires approval.  (b) If a tool call has been made, the gate had
    stepped before: until then the task was untouched, and the gate step left
    it in [/Pending_Approval/] with [status: pending_approval] and no tool
    call made.  (c) A step taken while [approved] is false makes no tool
    call. *)
Theorem gated_until_approved :
  forall (t : Task) (e : Effects) (steps : list Step),
    folder t = Needs_Action ->
    existsb alwaysRequiresApproval (actions_of t) = true ->
    (forall t', mcp_action t' = mcp_action t -> approvalRequired t' = true)
    /\ (mcp_calls (snd (run steps (t, e))) <> mcp_calls e ->
        exists before after,
          steps = before ++ Gate_step :: after
          /\ run before (t, e) = (t, e)
          /\ run (before ++ [Gate_step]) (t, e) = (gate t, e)
          /\ status (gate t) = pending_approval
          /\ folder (gate t) = Pending_Approval)
    /\ (forall s t1 e1,
          approved t1 = false ->
          mcp_calls (snd (step s (t1, e1))) = mcp_calls e1).
Proof.
  intros t e steps Hfolder Hsens. split; [|split].
  - intros t' Hsame. unfold approvalRequired, actions_of in *.
    rewrite Hsame, Hsens. reflexivity.
  - induction steps as [|s steps IH]; intros Hcalls.
    + now contradiction Hcalls.
    + destruct (gate_of_sensitive t Hfolder Hsens) as (Hst & Hfo & _).
      destruct s as [|ed|].
      * exists [], steps. repeat split; assumption.
      * rewrite run_cons in Hcalls.
        assert (Hstep : step (Human_step ed) (t, e) = (t, e)).
        { cbn. unfold in_Pending_Approval. now rewrite Hfolder. }
        rewrite Hstep in Hcalls.
        destruct (IH Hcalls) as (before & after & -> & Hb & Hg & _).
        exists (Human_step ed :: before), after.
        cbn [app]. rewrite !run_cons, Hstep. repeat split; assumption.
      * rewrite run_cons in Hcalls.
        assert (Hstep : step Scan_step (t, e) = (t, e)).
        { cbn. unfold in_Pending_Approval. now rewrite Hfolder. }
        rewrite Hstep in Hcalls.
        destruct (IH Hcalls) as (before & after & -> & Hb & Hg & _).
        exists (Scan_step :: before), after.
        cbn [app]. rewrite !run_cons, Hstep. repeat split; assumption.
  - intros s t1 e1 Happ. destruct s as [|ed|]; cbn.
    + reflexivity.
    + destruct (in_Pending_Approval t1); reflexivity.
    + destruct (in_Pending_Approval t1); [|reflexivity].
      now apply unapproved_task_makes_no_call.
Qed.

(** *** Scans *)

Lemma handle_task_at_rest t e :
  in_Pending_Approval t = true -> at_rest t = true -> handle_task t e = (t, e).
Proof.
  unfold at_rest, ApprovalHandler.handle_task. intros -> H. cbn in H.
  destruct (classify t); (discriminate H || reflexivity).
Qed.

Lemma scan_files_at_rest ts :
  forall e,
    (forall t, In t ts -> at_rest t = true) ->
    scan_files ts e = (ts, e).
Proof.
  induction ts as [|t ts IH]; intros e Hrest; [reflexivity|].
  cbn [ApprovalHandler.scan_files].
  assert (Ht : (if in_Pending_Approval t then handle_task t e else (t, e))
               = (t, e)).
  { destruct (in_Pending_Approval t) eqn:Hin; [|reflexivity].
    apply handle_task_at_rest; [assumption | apply Hrest; now left]. }
  rewrite Ht, IH; [reflexivity|].
  intros t' Hin. apply Hrest. now right.
Qed.

Lemma scan_at_rest v :
  (forall t, In t (tasks v) -> at_rest t = true) ->
  tasks (scan v) = tasks v
  /\ mcp_calls (effects (scan v)) = mcp_calls (effects v)
  /\ world (effects (scan v)) = world (effects v).
Proof.
  intros Hrest. unfold ApprovalHandler.scan.
  destruct (existsb in_Pending_Approval (tasks v)).
  - rewrite scan_files_at_rest by assumption. repeat split.
  - repeat split.
Qed.

(** One run of the skill on its own, step by step, is [handle_task]. *)
Lemma sequential_run_is_handle_task t e p2 :
  in_Pending_Approval t = true ->
  shared (interleave [false; false; false]
            {| first_run := Not_looked; second_run := p2; shared := (t, e) |})
  = handle_task t e.
Proof.
  intros Hin.
  unfold ApprovalHandler.interleave, overlap_step; cbn [fold_left shared first_run].
  unfold ApprovalHandler.handle_task, ApprovalHandler.handle_approved.
  cbn [ApprovalHandler.advance]. rewrite Hin.
  destruct (classify t); cbn [shared first_run ApprovalHandler.advance];
    try reflexivity.
  destruct (mcp_action t) as [actions|];
    cbn [shared first_run ApprovalHandler.advance]; [|reflexivity].
  destruct (execute actions (details t) e) as [o e1].
  cbn [shared first_run ApprovalHandler.advance].
  destruct (file_outcome o t e1); reflexivity.
Qed.

(** A handled file is at rest afterwards, or approved without naming an
    action, or approved and failed. *)
Lemma handle_task_settles t e :
  in_Pending_Approval t = true ->
  at_rest (fst (handle_task t e)) = true
  \/ approved (fst (handle_task t e)) = true
     /\ mcp_action (fst (handle_task t e)) = None
  \/ in_Pending_Approval (fst (handle_task t e)) = true
     /\ approved (fst (handle_task t e)) = true
     /\ status (fst (handle_task t e)) = execution_failed.
Proof.
  intros Hin.
  unfold ApprovalHandler.handle_task, ApprovalHandler.handle_approved.
  destruct (classify t) eqn:Hc.
  - assert (Happ : approved t = true).
    { unfold classify in Hc. destruct (approved t); [reflexivity|].
      destruct (is_rejected (status t)); [discriminate|].
      destruct (is_pending_approval (status t)); discriminate. }
    destruct (mcp_action t) as [actions|] eqn:Hact; [|right; left; auto].
    destruct (execute actions (details t) e) as [[results|tool detail] e1].
    + left. reflexivity.
    + right; right. cbn. auto.
  - left. reflexivity.
  - left. cbn [fst]. unfold at_rest. rewrite Hc. apply orb_true_r.
  - left. cbn [fst]. unfold at_rest. rewrite Hc. apply orb_true_r.
Qed.

Lemma scan_files_settles ts :
  forall e t',
    In t' (fst (scan_files ts e)) ->
    at_rest t' = true
    \/ approved t' = true /\ mcp_action t' = None
    \/ in_Pending_Approval t' = true
       /\ approved t' = true
       /\ status t' = execution_failed.
Proof.
  induction ts as [|t ts IH]; intros e t'; [intros []|].
  cbn [ApprovalHandler.scan_files].
  destruct (in_Pending_Approval t) eqn:Hin.
  - pose proof (handle_task_settles t e Hin) as Hl.
    destruct (handle_task t e) as [t1 e1]. cbn [fst] in Hl.
    specialize (IH e1 t'). destruct (scan_files ts e1) as [ts' e2].
    cbn [fst] in *. intros [<- | H]; auto.
  - specialize (IH e t'). destruct (scan_files ts e) as [ts' e2].
    cbn [fst] in *. intros [<- | H]; auto.
    left. unfold at_rest. rewrite Hin. reflexivity.
Qed.

(** A file at rest, or approved without naming an action, is left as it is,
    and no call is made for it. *)
Lemma handle_task_settled t e :
  at_rest t = true \/ approved t = true /\ mcp_action t = None ->
  in_Pending_Approval t = true ->
  fst (handle_task t e) = t
  /\ mcp_calls (snd (handle_task t e)) = mcp_calls e
  /\ world (snd (handle_task t e)) = world e.
Proof.
  intros [Hrest | [Happ Hact]] Hin.
  - rewrite handle_task_at_rest by assumption. repeat split.
  - unfold ApprovalHandler.handle_task, classify,
      ApprovalHandler.handle_approved.
    rewrite Happ, Hact. repeat split.
Qed.

Lemma scan_files_settled ts :
  forall e,
    (forall t, In t ts ->
               at_rest t = true \/ approved t = true /\ mcp_action t = None) ->
    fst (scan_files ts e) = ts
    /\ mcp_calls (snd (scan_files ts e)) = mcp_calls e
    /\ world (snd (scan_files ts e)) = world e.
Proof.
  induction ts as [|t ts IH]; intros e Hall; [repeat split|].
  cbn [ApprovalHandler.scan_files].
  assert (Ht : exists e1,
             (if in_Pending_Approval t then handle_task t e else (t, e))
             = (t, e1)
             /\ mcp_calls e1 = mcp_calls e /\ world e1 = world e).
  { destruct (in_Pending_Approval t) eqn:Hin; [|exists e; repeat split].
    destruct (handle_task_settled t e (Hall t (or_introl eq_refl)) Hin)
      as (H1 & H2 & H3).
    destruct (handle_task t e) as [t1 e1]. cbn [fst snd] in *.
    exists e1. subst t1. repeat split; assumption. }
  destruct Ht as (e1 & -> & Hc & Hw).
  destruct (IH e1) as (H1 & H2 & H3).
  { intros t0 Hin. apply Hall. now right. }
  destruct (scan_files ts e1) as [ts' e2]. cbn [fst snd] in *.
  subst ts'. repeat split; congruence.
Qed.

(** C2 (as amended).  Take a task of [/Pending_Approval/] with
    [status: pending_approval] that the human has approved, and whose
    actions all succeed: one run of the skill on its own calls each action
    of [mcp_action] exactly once, in order, and files the task under
    [/Done/] as completed, where scans leave it alone.  And when a scan has
    left no approved file in [/Pending_Approval/] with
    [status: execution_failed], a second scan, with no human edit in
    between, makes no tool call and no external call and changes no task. *)
Theorem approved_task_runs_once_when_alone :
  forall (t : Task) (e : Effects) (actions : list jsstring)
         (results : list value),
    in_Pending_Approval t = true ->
    status t = pending_approval ->
    approved t = true ->
    mcp_action t = Some actions ->
    fst (execute actions (details t) e) = Succeeded results ->
    (mcp_calls (snd (handle_task t e))
       = mcp_calls e ++ map (fun a => request_for a (details t)) actions
     /\ folder (fst (handle_task t e)) = Done
     /\ status (fst (handle_task t e)) = completed
     /\ at_rest (fst (handle_task t e)) = true)
    /\ (forall v,
          (forall t', In t' (tasks (scan v)) ->
                      in_Pending_Approval t' = true ->
                      approved t' = true ->
                      status t' <> execution_failed) ->
          tasks (scan (scan v)) = tasks (scan v)
          /\ mcp_calls (effects (scan (scan v)))
             = mcp_calls (effects (scan v))
          /\ world (effects (scan (scan v))) = world (effects (scan v))).
Proof.
  intros t e actions results Hin Hstatus Happ Hact Hok. split.
  - unfold ApprovalHandler.handle_task, classify,
      ApprovalHandler.handle_approved.
    rewrite Happ, Hact.
    destruct (execute_calls actions (details t) e) as (invoked & Hcalls & Hout).
    destruct (execute actions (details t) e) as [o e1].
    cbn [fst snd] in Hok, Hcalls, Hout. subst o invoked.
    cbn [file_outcome fst snd log mcp_calls folder status].
    repeat split. exact Hcalls.
  - intros v Hnone.
    assert (Hsettled : forall t', In t' (tasks (scan v)) ->
              at_rest t' = true \/ approved t' = true /\ mcp_action t' = None).
    { intros t' Hin'. specialize (Hnone t' Hin').
      revert Hin'. unfold ApprovalHandler.scan.
      destruct (existsb in_Pending_Approval (tasks v)) eqn:Hany.
      - pose proof (scan_files_settles (tasks v) (effects v) t') as Hs.
        destruct (scan_files (tasks v) (effects v)) as [ts e1].
        cbn [fst tasks] in *. intros Hin'.
        destruct (Hs Hin') as [H | [H | (H1 & H2 & H3)]]; auto.
        now contradiction (Hnone H1 H2).
      - cbn [tasks]. intros Hin'. left. unfold at_rest.
        destruct (in_Pending_Approval t') eqn:E; [|reflexivity].
        assert (Hex : existsb in_Pending_Approval (tasks v) = true)
          by (apply existsb_exists; eauto).
        congruence. }
    revert Hsettled. generalize (scan v). intros v1 Hsettled.
    unfold ApprovalHandler.scan.
    destruct (existsb in_Pending_Approval (tasks v1)); [|repeat split].
    destruct (scan_files_settled (tasks v1) (effects v1) Hsettled)
      as (H1 & H2 & H3).
    destruct (scan_files (tasks v1) (effects v1)) as [ts e1].
    cbn [fst snd tasks effects] in *. repeat split; assumption.
Qed.

(** After a failed execution the file stays in [/Pending_Approval/] with
    [status: execution_failed], the error detail and one more retry; the
    actions after the failed one have not been called. *)
Lemma failed_execution_is_parked t e actions tool detail :
  approved t = true ->
  mcp_action t = Some actions ->
  fst (execute actions (details t) e) = Failed tool detail ->
  folder (fst (handle_task t e)) = Pending_Approval
  /\ status (fst (handle_task t e)) = execution_failed
  /\ execution_result (fst (handle_task t e)) = Some (Failed tool detail)
  /\ retry_count (fst (handle_task t e)) = (retry_count t + 1)%N
  /\ approved (fst (handle_task t e)) = true
  /\ exists done rest,
       actions = done ++ tool :: rest
       /\ mcp_calls (snd (handle_task t e))
          = mcp_calls e
            ++ map (fun a => request_for a (details t)) (done ++ [tool]).
Proof.
  intros Happ Hact Hfail.
  unfold ApprovalHandler.handle_task, classify,
    ApprovalHandler.handle_approved.
  rewrite Happ, Hact.
  destruct (execute_calls actions (details t) e) as (invoked & Hcalls & Hout).
  destruct (execute actions (details t) e) as [o e1].
  cbn [fst snd] in Hfail, Hcalls, Hout. subst o.
  destruct Hout as (done & rest & Hsplit & ->).
  cbn [file_outcome fst snd log mcp_calls folder status execution_result
       retry_count approved].
  repeat split; try assumption. exists done, rest. split; assumption.
Qed.

(** Such a parked file is not at rest: the classification table still
    reads it as approved. *)
Lemma parked_task_is_still_approved t e actions tool detail :
  approved t = true ->
  mcp_action t = Some actions ->
  fst (execute actions (details t) e) = Failed tool detail ->
  in_Pending_Approval (fst (handle_task t e)) = true
  /\ classify (fst (handle_task t e)) = Approved
  /\ at_rest (fst (handle_task t e)) = false.
Proof.
  intros Happ Hact Hfail.
  destruct (failed_execution_is_parked t e actions tool detail Happ Hact Hfail)
    as (Hfo & _ & _ & _ & Happ' & _).
  unfold at_rest, in_Pending_Approval, classify.
  rewrite Hfo, Happ'. repeat split.
Qed.

(** What a scan leaves behind: a handled file is at rest afterwards, unless
    it was approved and either failed or names no action. *)
Lemma handled_task_is_at_rest_or_parked t e :
  in_Pending_Approval t = true ->
  at_rest (fst (handle_task t e)) = true
  \/ approved t = true
     /\ (mcp_action t = None
         \/ status (fst (handle_task t e)) = execution_failed).
Proof.
  intros Hin.
  unfold ApprovalHandler.handle_task, ApprovalHandler.handle_approved.
  destruct (classify t) eqn:Hc.
  - assert (Happ : approved t = true).
    { unfold classify in Hc. destruct (approved t); [reflexivity|].
      destruct (is_rejected (status t)); [discriminate|].
      destruct (is_pending_approval (status t)); discriminate. }
    destruct (mcp_action t) as [actions|]; [|right; auto].
    destruct (execute actions (details t) e) as [[results|tool detail] e1].
    + left. reflexivity.
    + right. split; [assumption | right; reflexivity].
  - left. reflexivity.
  - left. cbn [fst]. unfold at_rest. rewrite Hc. apply orb_true_r.
  - left. cbn [fst]. unfold at_rest. rewrite Hc. apply orb_true_r.
Qed.

End Skill.

(** *** Runs on sample vaults *)

(** C9.  On the sample vault, the first send is refused: the scan parks the
    approved task in [/Pending_Approval/] as [execution_failed] with one
    retry.  The next scan, with no human edit in between, finds
    [approved: true] again, calls [send_email] a second time and files the
    task under [/Done/]. *)
Theorem failed_task_is_rerun_by_the_next_scan :
  let v0 := {| tasks := [send_email_task]; effects := fresh_effects flaky |} in
  let v1 := sample_scan v0 in
  let v2 := sample_scan v1 in
  map folder (tasks v1) = [Pending_Approval]
  /\ map status (tasks v1) = [execution_failed]
  /\ map retry_count (tasks v1) = [1%N]
  /\ map approved (tasks v1) = [true]
  /\ length (mcp_calls (effects v1)) = 1
  /\ map folder (tasks v2) = [Done]
  /\ map status (tasks v2) = [completed]
  /\ mcp_calls (effects v2)
     = [request_for (lit "send_email") email_arguments;
        request_for (lit "send_email") email_arguments].
Proof. vm_compute. repeat split. Qed.

Lemma gated_until_approved_witness :
  let t := send_email_new_task in
  let e := fresh_effects reachable in
  let steps := [Scan_step; Gate_step; Scan_step;
                Human_step (Set_approved true); Scan_step] in
  folder t = Needs_Action
  /\ existsb alwaysRequiresApproval (actions_of t) = true
  /\ mcp_calls (snd (sample_run steps (t, e)))
     = [request_for (lit "send_email") email_arguments]
  /\ exists before after,
       steps = before ++ Gate_step :: after
       /\ sample_run before (t, e) = (t, e)
       /\ sample_run (before ++ [Gate_step]) (t, e) = (gate t, e)
       /\ status (gate t) = pending_approval
       /\ folder (gate t) = Pending_Approval.
Proof.
  cbv zeta. split; [reflexivity|]. split; [reflexivity|].
  split; [vm_compute; reflexivity|].
  refine (proj1 (proj2 (gated_until_approved ascii_toUpperCase digits_parseInt
                          live_env (Some gmail) send_email_new_task
                          (fresh_effects reachable)
                          [Scan_step; Gate_step; Scan_step;
                           Human_step (Set_approved true); Scan_step]
                          eq_refl eq_refl)) _).
  vm_compute. discriminate.
Defined.

(** C2, counterexample.  Two runs of the skill overlap on one approved task:
    each reads the file (Step 2) before the other has filed an outcome, and
    each then executes (Step 3A.2).  [send_email] has been called twice and
    two messages have been sent, for a task approved once. *)
Lemma overlapping_runs_call_twice :
  let final :=
    sample_interleave [false; true; false; true]
      (two_runs send_email_task (fresh_effects reachable)) in
  approved send_email_task = true
  /\ mcp_action send_email_task = Some [lit "send_email"]
  /\ mcp_calls (snd (shared final))
     = [request_for (lit "send_email") email_arguments;
        request_for (lit "send_email") email_arguments]
  /\ exists m,
       calls (world (snd (shared final)))
       = [SendMail gmail m; SendMail gmail m].
Proof.
  cbv zeta. split; [reflexivity|]. split; [reflexivity|].
  split; [vm_compute; reflexivity|].
  eexists. vm_compute. reflexivity.
Qed.

Lemma approved_task_runs_once_when_alone_witness :
  exists results,
    in_Pending_Approval send_email_task = true
    /\ status send_email_task = pending_approval
    /\ approved send_email_task = true
    /\ fst (sample_execute [lit "send_email"] email_arguments
              (fresh_effects reachable)) = Succeeded results
    /\ mcp_calls (snd (sample_handle_task send_email_task
                         (fresh_effects reachable)))
       = [request_for (lit "send_email") email_arguments]
    /\ folder (fst (sample_handle_task send_email_task
                      (fresh_effects reachable))) = Done
    /\ map folder (tasks (sample_scan mixed_vault))
       = [Done; Pending_Approval; Pending_Approval]
    /\ tasks (sample_scan (sample_scan mixed_vault))
       = tasks (sample_scan mixed_vault)
    /\ mcp_calls (effects (sample_scan (sample_scan mixed_vault)))
       = [request_for (lit "send_email") email_arguments].
Proof.
  pose (results :=
          match fst (sample_execute [lit "send_email"] email_arguments
                       (fresh_effects reachable)) with
          | Succeeded r => r
          | Failed _ _ => []
          end).
  exists results.
  assert (H : fst (sample_execute [lit "send_email"] email_arguments
                     (fresh_effects reachable)) = Succeeded results)
    by (vm_compute; reflexivity).
  split; [reflexivity|]. split; [reflexivity|]. split; [reflexivity|].
  split; [exact H|].
  destruct (approved_task_runs_once_when_alone ascii_toUpperCase
              digits_parseInt live_env (Some gmail) send_email_task
              (fresh_effects reachable) [lit "send_email"] results
              eq_refl eq_refl eq_refl eq_refl H) as ((Hc & Hf & _) & Hsecond).
  split; [exact Hc|]. split; [exact Hf|].
  split; [vm_compute; reflexivity|].
  destruct (Hsecond mixed_vault) as (Htasks & Hcalls & _).
  - intros t' Hin _ _.
    assert (Hst : In (status t') (map status (tasks (sample_scan mixed_vault))))
      by (apply in_map; exact Hin).
    replace (map status (tasks (sample_scan mixed_vault)))
      with [completed; pending_approval; pending_approval] in Hst
      by (vm_compute; reflexivity).
    destruct Hst as [E | [E | [E | []]]]; rewrite <- E; discriminate.
  - split; [exact Htasks|].
    etransitivity; [exact Hcalls|]. vm_compute. reflexivity.
Defined.

End ApprovalProperties.

(* ------------------------------------------------------------------------- *)
(** ** The scenarios of the specification, run on the model *)

Module Scenarios.
Import McpServer ApprovalHandler Vocabulary Samples.

Example emailRegex_accepts :
  map (test emailRegex) [lit "a@b.com"; lit "client@example.co.uk"]
  = [true; true].
Proof. vm_compute. reflexivity. Qed.

Example emailRegex_rejects :
  map (test emailRegex)
      [lit "not-an-email"; lit "a@b"; lit "a b@c.d"; lit "a@@b.c"; lit "@b.c";
       lit "a@.c"; lit "a@b."; []]
  = [false; false; false; false; false; false; false; false].
Proof. vm_compute. reflexivity. Qed.

Example trim_strips_both_ends :
  trim (lit "  hello world ") = lit "hello world"
  /\ trim [9; 10; 13; 32; 160]%N = [].
Proof. split; vm_compute; reflexivity. Qed.

Example stringify_drops_undefined :
  JSON_stringify (VObj [("success", VBool false);
                        ("error", VStr (lit "x"));
                        ("code", VUndefined)])
  = VObj [("success", VBool false); ("error", VStr (lit "x"))].
Proof. reflexivity. Qed.

(** Scenario 1: gated, approved, scanned; the message went out and the
    result holds the transport's identifier. *)
Example scenario_1_round_trip :
  let (t, e) := sample_run approve_and_scan
                  (send_email_new_task, fresh_effects reachable) in
  status (gate send_email_new_task) = pending_approval
  /\ status t = completed
  /\ folder t = Done
  /\ exists r,
       execution_result t = Some (Succeeded [r])
       /\ get "messageId" r = VStr (lit "<e426fb07@example.com>").
Proof.
  vm_compute. repeat split. eexists. split; reflexivity.
Qed.

(** Scenario 2: a recipient that is not an address. *)
Example scenario_2_invalid_recipient :
  let (t, e) :=
    sample_run approve_and_scan
      (new_task "task.md" [lit "send_email"] bad_email_arguments,
       fresh_effects reachable) in
  status t = execution_failed
  /\ retry_count t = 1%N
  /\ folder t = Pending_Approval
  /\ calls (world e) = []
  /\ execution_result t
     = Some (Failed (lit "send_email")
               (VStr (lit "Invalid email address format: not-an-email"))).
Proof. vm_compute. repeat split. Qed.

(** Scenario 3: a post of 3500 characters. *)
Example scenario_3_long_post :
  let (t, e) :=
    sample_run approve_and_scan
      (linkedin_new_task long_post, fresh_effects reachable) in
  status t = execution_failed
  /\ calls (world e) = []
  /\ execution_result t
     = Some (Failed (lit "post_linkedin")
               (VStr (lit "Post content too long: 3500 characters (max 3000)"))).
Proof. vm_compute. repeat split. Qed.

(** Scenario 4: the human rejects. *)
Example scenario_4_rejection :
  let (t, e) :=
    sample_run [Gate_step; Human_step (Set_status rejected); Scan_step]
      (send_email_new_task, fresh_effects reachable) in
  status t = rejected
  /\ folder t = Done
  /\ execution_result t = None
  /\ mcp_calls e = []
  /\ System_Log e = [Approval_Rejected (file send_email_new_task)].
Proof. vm_compute. repeat split. Qed.

End Scenarios.

(* ------------------------------------------------------------------------- *)
(** ** More about the tool handlers and the dispatcher *)

Module ServerCoverage.
Import McpServer Vocabulary Samples Coverage.

Lemma str_eqb_eq a : forall b, str_eqb a b = true <-> a = b.
Proof.
  induction a as [|x a IH]; intros [|y b]; cbn; split; intros H;
    try discriminate; try reflexivity.
  - apply andb_true_iff in H as [Hx Hab].
    apply N.eqb_eq in Hx. apply IH in Hab. now subst.
  - injection H as -> ->. rewrite N.eqb_refl. now apply IH.
Qed.

Lemma trimStart_nil s : trimStart s = [] <-> blank s = true.
Proof.
  unfold blank. induction s as [|c s IH]; cbn; [tauto|].
  destruct (isWhiteSpace c); cbn; [exact IH|].
  split; discriminate.
Qed.

Lemma blank_app a b : blank (a ++ b) = blank a && blank b.
Proof. unfold blank. apply forallb_app. Qed.

Lemma blank_rev s : blank (rev s) = blank s.
Proof.
  induction s as [|c s IH]; [reflexivity|].
  cbn [rev]. rewrite blank_app, IH. unfold blank. cbn.
  rewrite andb_true_r. apply andb_comm.
Qed.

Lemma trimStart_blank s : blank (trimStart s) = blank s.
Proof.
  unfold blank. induction s as [|c s IH]; [reflexivity|].
  cbn [trimStart]. destruct (isWhiteSpace c) eqn:Hc; [|reflexivity].
  cbn [forallb]. now rewrite Hc.
Qed.

(** [s.trim()] is empty exactly when [s] holds nothing but white space. *)
Lemma trim_nil s : trim s = [] <-> blank s = true.
Proof.
  unfold trim. split.
  - intros H. apply (f_equal (@rev N)) in H. rewrite rev_involutive in H.
    cbn in H. apply trimStart_nil in H.
    rewrite blank_rev, trimStart_blank in H. exact H.
  - intros H.
    assert (H1 : trimStart s = []) by now apply trimStart_nil.
    rewrite H1. reflexivity.
Qed.

Lemma len_zero s : (len s =? 0)%N = true <-> s = [].
Proof.
  unfold len. rewrite N.eqb_eq. destruct s; cbn; split; intros H;
    try reflexivity; try discriminate; lia.
Qed.

Lemma content_passes_spec params :
  content_passes params = true <->
  exists c, content params = Some c /\ blank c = false /\ (len c <= 3000)%N.
Proof.
  unfold content_passes. split.
  - intros H. apply andb_true_iff in H as [H1 H2].
    apply negb_true_iff in H1, H2. apply orb_false_elim in H1 as [Hf Ht].
    destruct (content params) as [c|]; [|discriminate Hf].
    exists c. cbn [str] in *. split; [reflexivity|]. split.
    + destruct (blank c) eqn:Hb; [|reflexivity].
      apply trim_nil in Hb. rewrite Hb in Ht. discriminate Ht.
    + apply N.ltb_ge in H2. exact H2.
  - intros (c & -> & Hb & Hl). cbn [str].
    apply andb_true_iff. split; apply negb_true_iff.
    + apply orb_false_intro.
      * destruct c; [discriminate Hb | reflexivity].
      * destruct (len (trim c) =? 0)%N eqn:Hz; [|reflexivity].
        apply len_zero, trim_nil in Hz. congruence.
    + now apply N.ltb_ge.
Qed.

Section Handlers.

Variable toUpperCase : jsstring -> jsstring.
Variable parseInt : jsstring -> value.
Variable env : Env.

(** [initializeTransporter] looks at the SMTP user only.  With a user it
    makes no external call and the transporter is the configured one,
    whatever [TEST_MODE] says; without one it asks for a test account and,
    when it gets one, the transporter is Ethereal's with that account. *)
Theorem transporter_follows_smtp_user :
  forall (w : World),
    (falsy (SMTP_USER env) = false ->
     initializeTransporter parseInt env w
     = (Normal (Some (SMTP_CONFIG parseInt env)), w))
    /\ (falsy (SMTP_USER env) = true ->
        forall account,
          createTestAccount (outside w) (length (calls w)) = Normal account ->
          initializeTransporter parseInt env w
          = (Normal (Some {| host := lit "smtp.ethereal.email";
                             port := VNum 587;
                             secure := false;
                             auth_user := user account;
                             auth_pass := pass account |}),
             {| outside := outside w;
                calls := calls w ++ [CreateTestAccount] |})).
Proof.
  intros w.
  unfold initializeTransporter, TEST_MODE, SMTP_CONFIG; cbn [auth_user].
  rewrite ServerProperties.falsy_or_else. split; intros Hu.
  - rewrite Hu, andb_false_r. reflexivity.
  - rewrite Hu, orb_true_r. cbn [andb].
    intros account Ha. unfold try_catch, bind, external, ret.
    rewrite Ha. reflexivity.
Qed.

(** A [send_email] call that passes validation on a server with a
    transporter hands it exactly one message: [to] and [subject] as given,
    [from] as given or else the configured sender, and the body under [html]
    when [html] is true and under [text] otherwise, never under both. *)
Theorem send_email_hands_over_the_message :
  forall (params : Arguments) (t : SmtpOptions) (w : World),
    email_passes params = true ->
    exists m,
      snd (handleSendEmail parseInt env (Some t) (Some params) w)
      = {| outside := outside w; calls := calls w ++ [SendMail t m] |}
      /\ get "to" m = VStr (str (to params))
      /\ get "subject" m = VStr (str (subject params))
      /\ get "from" m = VStr (sender env params)
      /\ get (body_key params) m = VStr (str (body params))
      /\ has_key (other_body_key params) m = false
      /\ length (keys m) = 4.
Proof.
  intros params t w H. unfold email_passes in H.
  apply andb_true_iff in H as [H1 H2]. apply negb_true_iff in H1.
  unfold handleSendEmail. rewrite H1, H2. cbn [negb].
  unfold try_catch, bind, external, ret, sender, body_key, other_body_key.
  eexists. split.
  - match goal with |- context [sendMail ?o ?n ?t ?m] =>
      destruct (sendMail o n t m) as [info|error] end.
    + destruct (negb (falsy (messageId info)) && TEST_MODE parseInt env);
        [destruct (negb (falsy (getTestMessageUrl info)))|]; reflexivity.
    + reflexivity.
  - destruct (html params) as [[|]|]; repeat split.
Qed.

(** What a [send_email] call through a transporter reports.  When the
    transport refuses, the result is [success: false] with the error's
    message and code, and nothing is thrown.  When it accepts, the result
    holds a [previewUrl] exactly when the message has an identifier, the
    server is in test mode and the message has a test URL, which is then
    the value. *)
Theorem send_email_reports_the_transport :
  forall (params : Arguments) (t : SmtpOptions) (w : World),
    email_passes params = true ->
    exists r m,
      handleSendEmail parseInt env (Some t) (Some params) w
      = (Normal r,
         {| outside := outside w; calls := calls w ++ [SendMail t m] |})
      /\ match sendMail (outside w) (length (calls w)) t m with
         | Throw error =>
             r = VObj [("success", VBool false);
                       ("error", VStr (message error));
                       ("code", opt_str (code error))]
         | Normal info =>
             has_key "previewUrl" r
             = negb (falsy (messageId info)) && TEST_MODE parseInt env
               && negb (falsy (getTestMessageUrl info))
             /\ (has_key "previewUrl" r = true ->
                 get "previewUrl" r = opt_str (getTestMessageUrl info))
         end.
Proof.
  intros params t w H. unfold email_passes in H.
  apply andb_true_iff in H as [H1 H2]. apply negb_true_iff in H1.
  unfold handleSendEmail. rewrite H1, H2. cbn [negb].
  unfold try_catch, bind, external, ret.
  match goal with |- context [sendMail ?o ?n ?t ?m] =>
    destruct (sendMail o n t m) as [info|error] eqn:Hsent end.
  - destruct (negb (falsy (messageId info))) eqn:Hid; cbn [andb];
      [destruct (TEST_MODE parseInt env) eqn:Htm; cbn [andb];
       [destruct (getTestMessageUrl info) as [[|c url]|] eqn:Hurl;
        cbn [falsy negb]|]|];
      do 2 eexists; (split; [reflexivity|]);
      rewrite Hsent, Hid, ?Htm, ?Hurl; cbn [falsy negb andb];
      (split; [reflexivity|]); first [discriminate | reflexivity].
  - do 2 eexists; (split; [reflexivity|]); rewrite Hsent. reflexivity.
Qed.

Lemma handlers_step :
  forall (params : Arguments) (transporter : option SmtpOptions) (w : World),
    (exists r w',
       handleSendEmail parseInt env transporter (Some params) w = (Normal r, w')
       /\ (w' = w
           \/ exists t m,
                transporter = Some t
                /\ w' = {| outside := outside w;
                           calls := calls w ++ [SendMail t m] |}))
    /\ (exists r w',
          handlePostLinkedin toUpperCase env (Some params) w = (Normal r, w')
          /\ (w' = w
              \/ exists url init,
                   LINKEDIN_TEST_MODE env = false
                   /\ w' = {| outside := outside w;
                              calls := calls w ++ [Fetch url init] |})).
Proof.
  intros params transporter w. split.
  - destruct (email_passes params) eqn:Hp.
    + destruct transporter as [t|].
      * destruct (ServerProperties.send_email_through parseInt env params t w Hp)
          as (r & m & Hr & _).
        exists r. eexists. split; [exact Hr|]. right. eauto.
      * destruct (ServerProperties.send_email_mock parseInt env params w Hp)
          as (r & Hr & _).
        exists r, w. auto.
    + destruct (ServerProperties.send_email_validation_fails
                  parseInt env transporter params w Hp) as (msg & Hr).
      eexists. exists w. split; [exact Hr | left; reflexivity].
  - destruct (content_passes params) eqn:Hc.
    + destruct (includes validVisibility
                  (toUpperCase (requested_visibility params))) eqn:Hv.
      * destruct (LINKEDIN_TEST_MODE env) eqn:Ht.
        -- destruct (ServerProperties.post_linkedin_test_mode
                       toUpperCase env params w Hc Hv Ht) as (r & Hr & _).
           exists r, w. auto.
        -- destruct (ServerProperties.post_linkedin_live
                       toUpperCase env params w Hc Hv Ht)
             as (r & url & init & Hr & _).
           exists r. eexists. split; [exact Hr|]. right. eauto.
      * destruct (ServerProperties.post_linkedin_visibility_fails
                    toUpperCase env params w Hc Hv) as (msg & Hr).
        eexists. exists w. split; [exact Hr | left; reflexivity].
    + destruct (ServerProperties.post_linkedin_content_fails
                  toUpperCase env params w Hc) as (msg & Hr).
      eexists. exists w. split; [exact Hr | left; reflexivity].
Qed.

(** Given an arguments object, neither handler throws, and neither makes
    more than one external call: [send_email] none or one send through the
    server's transporter, [post_linkedin] none or, in live mode, one
    request. *)
Theorem handlers_call_out_at_most_once :
  forall (params : Arguments) (transporter : option SmtpOptions) (w : World),
    (exists r w',
       handleSendEmail parseInt env transporter (Some params) w = (Normal r, w')
       /\ (w' = w
           \/ exists t m,
                transporter = Some t
                /\ w' = {| outside := outside w;
                           calls := calls w ++ [SendMail t m] |}))
    /\ (exists r w',
          handlePostLinkedin toUpperCase env (Some params) w = (Normal r, w')
          /\ (w' = w
              \/ exists url init,
                   LINKEDIN_TEST_MODE env = false
                   /\ w' = {| outside := outside w;
                              calls := calls w ++ [Fetch url init] |})).
Proof. exact handlers_step. Qed.

(** Content made of white space only is refused as empty, before the length
    and the visibility are looked at and without any external call. *)
Theorem blank_content_is_refused :
  forall (params : Arguments) (c : jsstring) (w : World),
    content params = Some c ->
    blank c = true ->
    handlePostLinkedin toUpperCase env (Some params) w
    = (Normal (validation_failure
                 (lit "Missing required parameter: content cannot be empty")),
       w).
Proof.
  intros params c w Hc Hb. unfold handlePostLinkedin. rewrite Hc. cbn [str].
  apply trim_nil in Hb. rewrite Hb. cbn [len length N.of_nat N.eqb].
  rewrite orb_true_r. reflexivity.
Qed.

(** In test mode a post makes no external call, and it succeeds exactly when
    the content holds something other than white space, is at most 3000
    code units long, and the visibility upper-cases to [PUBLIC] or
    [CONNECTIONS]. *)
Theorem test_mode_post_succeeds_iff :
  forall (params : Arguments) (w : World),
    LINKEDIN_TEST_MODE env = true ->
    exists r,
      handlePostLinkedin toUpperCase env (Some params) w = (Normal r, w)
      /\ (get "success" r = VBool true <->
          (exists c, content params = Some c /\ blank c = false
                     /\ (len c <= 3000)%N)
          /\ includes validVisibility
               (toUpperCase (requested_visibility params)) = true).
Proof.
  intros params w Ht.
  destruct (content_passes params) eqn:Hc.
  - destruct (includes validVisibility
                (toUpperCase (requested_visibility params))) eqn:Hv.
    + destruct (ServerProperties.post_linkedin_test_mode
                  toUpperCase env params w Hc Hv Ht) as (r & Hr & Hs & _).
      exists r. split; [exact Hr|]. split; [|intros _; exact Hs].
      intros _. split; [now apply content_passes_spec | reflexivity].
    + destruct (ServerProperties.post_linkedin_visibility_fails
                  toUpperCase env params w Hc Hv) as (msg & Hr).
      eexists. split; [exact Hr|]. split; [discriminate|].
      intros [_ H]; discriminate H.
  - destruct (ServerProperties.post_linkedin_content_fails
                toUpperCase env params w Hc) as (msg & Hr).
    eexists. split; [exact Hr|]. split; [discriminate|].
    intros [H _]. apply content_passes_spec in H. congruence.
Qed.

Lemma passes_split params :
  content_passes params = true ->
  falsy (content params) || (len (trim (str (content params))) =? 0)%N = false
  /\ (3000 <? len (str (content params)))%N = false.
Proof.
  unfold content_passes. intros H. apply andb_true_iff in H as [H1 H2].
  now apply negb_true_iff in H1, H2.
Qed.

(** The test-mode result shows the content whole when it has at most 200
    code units and its first 200 followed by three dots otherwise, never
    more than 203; [characterCount] is the full length, and the post URL
    ends in the synthetic identifier. *)
Theorem test_mode_preview_is_cut_at_200 :
  forall (params : Arguments) (w : World),
    LINKEDIN_TEST_MODE env = true ->
    content_passes params = true ->
    includes validVisibility (toUpperCase (requested_visibility params)) = true ->
    exists r shown id,
      handlePostLinkedin toUpperCase env (Some params) w = (Normal r, w)
      /\ get "content" r = VStr shown
      /\ (len shown <= 203)%N
      /\ ((len (str (content params)) <= 200)%N -> shown = str (content params))
      /\ ((200 < len (str (content params)))%N ->
          shown = firstn 200 (str (content params)) ++ lit "...")
      /\ get "characterCount" r = VNum (len (str (content params)))
      /\ get "postId" r = VStr id
      /\ get "postUrl" r = VStr (feed_update ++ id).
Proof.
  intros params w Ht Hc Hv.
  destruct (passes_split params Hc) as [H1 H2].
  unfold handlePostLinkedin. fold (requested_visibility params).
  rewrite H1, H2, Hv, Ht. cbn [negb]. unfold bind, now, ret.
  do 3 eexists. split; [reflexivity|]. split; [reflexivity|].
  set (c := str (content params)).
  assert (Hfirst : (length (firstn 200 c) <= 200)%nat) by apply firstn_le_length.
  unfold substring0. repeat split.
  - unfold len. destruct (200 <? N.of_nat (length c))%N;
      rewrite length_app; cbn [length lit map list_ascii_of_string]; lia.
  - intros Hle. apply N.ltb_ge in Hle. rewrite Hle.
    rewrite app_nil_r. apply firstn_all2.
    apply N.ltb_ge in Hle. unfold len in Hle. lia.
  - intros Hlt. apply N.ltb_lt in Hlt. rewrite Hlt. reflexivity.
Qed.

Lemma live_mode_has_credentials :
  LINKEDIN_TEST_MODE env = false ->
  LINKEDIN_accessToken env <> [] /\ LINKEDIN_personUrn env <> [].
Proof.
  unfold LINKEDIN_TEST_MODE. intros H. apply orb_false_elim in H as [H1 H2].
  split; intros E; [rewrite E in H1 | rewrite E in H2]; discriminate.
Qed.

(** In live mode a post that passes validation makes one request: a [POST]
    to the ugcPosts endpoint, authorised with the configured token, whose
    body names the configured person as author and carries the content
    unchanged and the upper-cased visibility. *)
Theorem live_post_request :
  forall (params : Arguments) (w : World),
    LINKEDIN_TEST_MODE env = false ->
    content_passes params = true ->
    includes validVisibility (toUpperCase (requested_visibility params)) = true ->
    exists init,
      snd (handlePostLinkedin toUpperCase env (Some params) w)
      = {| outside := outside w; calls := calls w ++ [Fetch ugcPosts init] |}
      /\ get "method" init = VStr (lit "POST")
      /\ get "Authorization" (get "headers" init)
         = VStr (lit "Bearer " ++ LINKEDIN_accessToken env)
      /\ LINKEDIN_accessToken env <> []
      /\ get "author" (get "body" init) = VStr (LINKEDIN_personUrn env)
      /\ get "lifecycleState" (get "body" init) = VStr (lit "PUBLISHED")
      /\ get "text"
           (get "shareCommentary"
              (get "com.linkedin.ugc.ShareContent"
                 (get "specificContent" (get "body" init))))
         = VStr (str (content params))
      /\ get "com.linkedin.ugc.MemberNetworkVisibility"
           (get "visibility" (get "body" init))
         = VStr (toUpperCase (requested_visibility params)).
Proof.
  intros params w Ht Hc Hv.
  destruct (passes_split params Hc) as [H1 H2].
  destruct (live_mode_has_credentials Ht) as [Htok _].
  unfold handlePostLinkedin. fold (requested_visibility params).
  rewrite H1, H2, Hv, Ht. cbn [negb].
  unfold try_catch, bind, external, settle, ret.
  eexists. split.
  - match goal with |- context [fetch ?o ?n ?u ?i] =>
      destruct (fetch o n u i) as [response|error] end;
      [destruct (ok response); cbn [negb];
       [destruct (json_id response) | destruct (text response)]|];
      reflexivity.
  - repeat split. exact Htok.
Qed.

(** What a live post reports.  A request that cannot be made, or a body that
    cannot be read, gives [success: false] with the error's message; an
    answer that is not ok gives [LinkedIn API error: <status>] with the
    body as [details] and no [postId]; an ok answer gives the identifier of
    the body, or [unknown] when it has none, and the post URL ending in
    it. *)
Theorem live_post_outcomes :
  forall (params : Arguments) (w : World),
    LINKEDIN_TEST_MODE env = false ->
    content_passes params = true ->
    includes validVisibility (toUpperCase (requested_visibility params)) = true ->
    exists r init,
      fst (handlePostLinkedin toUpperCase env (Some params) w) = Normal r
      /\ match fetch (outside w) (length (calls w)) ugcPosts init with
         | Throw error =>
             r = VObj [("success", VBool false); ("error", VStr (message error))]
         | Normal response =>
             if ok response then
               match json_id response with
               | Normal id =>
                   get "success" r = VBool true
                   /\ get "postId" r = VStr (or_else id (lit "unknown"))
                   /\ get "postUrl" r
                      = VStr (feed_update ++ or_else id (lit "unknown"))
               | Throw error =>
                   r = VObj [("success", VBool false);
                             ("error", VStr (message error))]
               end
             else
               match text response with
               | Normal errorBody =>
                   r = VObj [("success", VBool false);
                             ("error", VStr (lit "LinkedIn API error: "
                                             ++ decimal (Async.status response)));
                             ("details", VStr errorBody)]
               | Throw error =>
                   r = VObj [("success", VBool false);
                             ("error", VStr (message error))]
               end
         end.
Proof.
  intros params w Ht Hc Hv.
  destruct (passes_split params Hc) as [H1 H2].
  unfold handlePostLinkedin. fold (requested_visibility params).
  rewrite H1, H2, Hv, Ht. cbn [negb].
  unfold try_catch, bind, external, settle, ret.
  match goal with |- context [fetch ?o ?n ?u ?i] =>
    exists (match fetch o n u i with
            | Normal response =>
                if ok response then
                  match json_id response with
                  | Normal id =>
                      VObj [("success", VBool true);
                            ("mode", VStr (lit "live"));
                            ("postId", VStr (or_else id (lit "unknown")));
                            ("postUrl",
                             VStr (feed_update ++ or_else id (lit "unknown")));
                            ("visibility",
                             VStr (toUpperCase (requested_visibility params)));
                            ("characterCount",
                             VNum (len (str (content params))))]
                  | Throw error =>
                      VObj [("success", VBool false);
                            ("error", VStr (message error))]
                  end
                else
                  match text response with
                  | Normal errorBody =>
                      VObj [("success", VBool false);
                            ("error", VStr (lit "LinkedIn API error: "
                                            ++ decimal (Async.status response)));
                            ("details", VStr errorBody)]
                  | Throw error =>
                      VObj [("success", VBool false);
                            ("error", VStr (message error))]
                  end
            | Throw error =>
                VObj [("success", VBool false); ("error", VStr (message error))]
            end), i;
    change u with ugcPosts;
    destruct (fetch o n ugcPosts i) as [response|error] end.
  - destruct (ok response); cbn [negb].
    + destruct (json_id response); (split; [reflexivity|]);
        [repeat split | reflexivity].
    + destruct (text response); split; reflexivity.
  - split; reflexivity.
Qed.

Lemma check_email_config_cases :
  forall (transporter : option SmtpOptions) (w : World),
    exists r w',
      handleCheckEmailConfig parseInt env transporter w = (Normal r, w')
      /\ get "hasCredentials" r = VBool (negb (falsy (SMTP_USER env)))
      /\ get "testMode" r = VBool (TEST_MODE parseInt env)
      /\ match transporter with
         | None =>
             w' = w /\ get "connectionStatus" r = VStr (lit "mock")
         | Some t =>
             w' = {| outside := outside w; calls := calls w ++ [Verify t] |}
             /\ match verify (outside w) (length (calls w)) t with
                | Normal _ =>
                    get "connectionStatus" r = VStr (lit "connected")
                | Throw error =>
                    get "connectionStatus" r = VStr (lit "error")
                    /\ get "message" r
                       = VStr (lit "Connection failed: " ++ message error)
                end
         end.
Proof.
  intros transporter w. unfold handleCheckEmailConfig.
  assert (Hcred : falsy (Some (auth_user (SMTP_CONFIG parseInt env)))
                  = falsy (SMTP_USER env))
    by (unfold SMTP_CONFIG; cbn [auth_user]; apply ServerProperties.falsy_or_else).
  destruct transporter as [t|].
  - unfold try_catch, bind, external, ret.
    destruct (verify (outside w) (length (calls w)) t) as [[]|error];
      do 2 eexists; (split; [reflexivity|]); cbn [get lookup String.eqb Ascii.eqb Bool.eqb app];
      rewrite Hcred; repeat split.
  - unfold ret. do 2 eexists. split; [reflexivity|].
    cbn [get lookup String.eqb Ascii.eqb Bool.eqb app]. rewrite Hcred. repeat split.
Qed.

(** [check_email_config] never throws.  Without a transporter it makes no
    external call and reports [mock]; with one it verifies the connection
    once and reports [connected], or [error] with the failure's message.
    [hasCredentials] says whether an SMTP user is configured. *)
Theorem check_email_config_reports :
  forall (transporter : option SmtpOptions) (w : World),
    exists r w',
      handleCheckEmailConfig parseInt env transporter w = (Normal r, w')
      /\ get "hasCredentials" r = VBool (negb (falsy (SMTP_USER env)))
      /\ get "testMode" r = VBool (TEST_MODE parseInt env)
      /\ match transporter with
         | None =>
             w' = w /\ get "connectionStatus" r = VStr (lit "mock")
         | Some t =>
             w' = {| outside := outside w; calls := calls w ++ [Verify t] |}
             /\ match verify (outside w) (length (calls w)) t with
                | Normal _ =>
                    get "connectionStatus" r = VStr (lit "connected")
                | Throw error =>
                    get "connectionStatus" r = VStr (lit "error")
                    /\ get "message" r
                       = VStr (lit "Connection failed: " ++ message error)
                end
         end.
Proof. exact check_email_config_cases. Qed.

(** *** The dispatcher and the server loop *)

Variable transporter : option SmtpOptions.

Lemma In_TOOLS x :
  In x TOOLS <->
  x = lit "send_email" \/ x = lit "post_linkedin" \/ x = lit "check_email_config".
Proof.
  unfold TOOLS. cbn [In]. split.
  - intros [H | [H | [H | []]]]; auto.
  - intros [H | [H | H]]; auto.
Qed.

(** What one tool call does to the world: the outside is the same, and at
    most one external call is added, never the creation of a test
    account. *)
Lemma callTool_step request w :
  exists res w' added,
    callTool toUpperCase parseInt env transporter request w = (Normal res, w')
    /\ outside w' = outside w
    /\ calls w' = calls w ++ added
    /\ (length added <= 1)%nat
    /\ forallb (fun c => negb (is_account_call c)) added = true
    /\ (isError res = Some true <->
        ~ In (name request) TOOLS
        \/ arguments request = None
           /\ (name request = lit "send_email"
               \/ name request = lit "post_linkedin"))
    /\ (isError res = Some true \/ isError res = None).
Proof.
  unfold callTool. rewrite ServerProperties.callToolWith_selected.
  unfold selected, handlers; cbn [on_send_email on_post_linkedin on_check_email_config].
  destruct (str_eqb (name request) (lit "send_email")) eqn:E1.
  { apply str_eqb_eq in E1.
    destruct (arguments request) as [params|] eqn:Ha.
    - destruct (handlers_step params transporter w)
        as ((r & w' & Hr & Hw) & _).
      rewrite Hr. do 2 eexists.
      destruct Hw as [-> | (t & m & _ & ->)];
        [exists [] | exists [SendMail t m]];
        (split; [reflexivity|]); cbn [outside calls length forallb is_account_call negb andb isError];
        rewrite ?app_nil_r; repeat split; try lia; auto;
        try discriminate.
      + intros [H | [H _]]; [|discriminate H].
        exfalso. apply H. apply In_TOOLS. auto.
      + intros [H | [H _]]; [|discriminate H].
        exfalso. apply H. apply In_TOOLS. auto.
    - cbn. do 2 eexists. exists []. split; [reflexivity|].
      rewrite app_nil_r. repeat split; auto. }
  destruct (str_eqb (name request) (lit "post_linkedin")) eqn:E2.
  { apply str_eqb_eq in E2.
    destruct (arguments request) as [params|] eqn:Ha.
    - destruct (handlers_step params transporter w)
        as (_ & (r & w' & Hr & Hw)).
      rewrite Hr. do 2 eexists.
      destruct Hw as [-> | (url & init & _ & ->)];
        [exists [] | exists [Fetch url init]];
        (split; [reflexivity|]); cbn [outside calls length forallb is_account_call negb andb isError];
        rewrite ?app_nil_r; repeat split; try lia; auto;
        try discriminate.
      + intros [H | [H _]]; [|discriminate H].
        exfalso. apply H. apply In_TOOLS. auto.
      + intros [H | [H _]]; [|discriminate H].
        exfalso. apply H. apply In_TOOLS. auto.
    - cbn. do 2 eexists. exists []. split; [reflexivity|].
      rewrite app_nil_r. repeat split; auto. }
  destruct (str_eqb (name request) (lit "check_email_config")) eqn:E3.
  { apply str_eqb_eq in E3.
    destruct (check_email_config_cases transporter w)
      as (r & w' & Hr & _ & _ & Hw).
    rewrite Hr. do 2 eexists.
    assert (Hno : ~ (~ In (name request) TOOLS
                     \/ arguments request = None
                        /\ (name request = lit "send_email"
                            \/ name request = lit "post_linkedin"))).
    { intros [H | [_ [H | H]]].
      - apply H. apply In_TOOLS. auto.
      - rewrite E3 in H. discriminate H.
      - rewrite E3 in H. discriminate H. }
    destruct transporter as [t|].
    - destruct Hw as [-> _]. exists [Verify t].
      split; [reflexivity|]. cbn [outside calls length forallb is_account_call negb andb isError].
      repeat split; try lia; auto; try discriminate. intros H; now apply Hno in H.
    - destruct Hw as [-> _]. exists [].
      split; [reflexivity|]. rewrite app_nil_r.
      cbn [length forallb isError].
      repeat split; try lia; auto; try discriminate. intros H; now apply Hno in H. }
  do 2 eexists. exists []. split; [reflexivity|]. rewrite app_nil_r.
  cbn [length forallb isError error_result].
  repeat split; try lia; auto.
  intros _. left. intros H. apply In_TOOLS in H.
  destruct H as [H | [H | H]]; apply str_eqb_eq in H; congruence.
Qed.

(** The server sets [isError] exactly when the tool is not one of [TOOLS],
    or when [send_email] or [post_linkedin] is called without an arguments
    object; otherwise [isError] is left out, also when the handler's result
    says [success: false]. *)
Theorem isError_marks_unknown_tools_and_missing_arguments :
  forall (request : CallToolRequest) (w : World),
    exists res w',
      callTool toUpperCase parseInt env transporter request w = (Normal res, w')
      /\ (isError res = Some true <->
          ~ In (name request) TOOLS
          \/ arguments request = None
             /\ (name request = lit "send_email"
                 \/ name request = lit "post_linkedin"))
      /\ (isError res = Some true \/ isError res = None).
Proof.
  intros request w.
  destruct (callTool_step request w)
    as (res & w' & added & Hr & _ & _ & _ & _ & Hiff & Hor).
  exists res, w'. auto.
Qed.

Lemma serve_steps requests :
  forall w,
    exists rs w' during,
      serve toUpperCase parseInt env transporter requests w = (Normal rs, w')
      /\ length rs = length requests
      /\ outside w' = outside w
      /\ calls w' = calls w ++ during
      /\ (length during <= length requests)%nat
      /\ forallb (fun c => negb (is_account_call c)) during = true.
Proof.
  induction requests as [|request rest IH]; intros w.
  - exists [], w, []. cbn. rewrite app_nil_r. repeat split; lia.
  - cbn [serve]. unfold bind.
    destruct (callTool_step request w)
      as (res & w1 & added & Hr & Ho & Hc & Hl & Hn & _).
    rewrite Hr.
    destruct (IH w1) as (rs & w' & during & Hrs & Hlen & Ho' & Hc' & Hl' & Hn').
    rewrite Hrs. unfold ret.
    exists (res :: rs), w', (added ++ during).
    split; [reflexivity|]. cbn [length].
    rewrite Hc', Hc, Ho', Ho, <- app_assoc, length_app, forallb_app, Hn, Hn'.
    repeat split; lia.
Qed.

End Handlers.

(** Started with any environment, the server never throws: it answers every
    request, in order of arrival.  It asks for a test account at most once,
    before the first request, and afterwards makes at most one external call
    per request. *)
Theorem server_answers_every_request :
  forall (toUpperCase : jsstring -> jsstring) (parseInt : jsstring -> value)
         (env : Env) (requests : list CallToolRequest) (w : World),
    exists rs w' started during,
      main toUpperCase parseInt env requests w = (Normal rs, w')
      /\ length rs = length requests
      /\ calls w' = calls w ++ started ++ during
      /\ (started = [] \/ started = [CreateTestAccount])
      /\ (length during <= length requests)%nat
      /\ forallb (fun c => negb (is_account_call c)) during = true.
Proof.
  intros toUpperCase parseInt env requests w. unfold main, bind.
  destruct (ServerProperties.initializeTransporter_cases parseInt env w)
    as (tr & w1 & Hinit & _).
  rewrite Hinit.
  assert (Hstart : exists started,
             calls w1 = calls w ++ started
             /\ (started = [] \/ started = [CreateTestAccount])).
  { revert Hinit. unfold initializeTransporter.
    destruct (TEST_MODE parseInt env
              && falsy (Some (auth_user (SMTP_CONFIG parseInt env)))).
    - unfold try_catch, bind, external, ret.
      destruct (createTestAccount (outside w) (length (calls w)));
        intros H; injection H as _ <-; exists [CreateTestAccount]; auto.
    - unfold ret. intros H; injection H as _ <-. exists [].
      rewrite app_nil_r. auto. }
  destruct Hstart as (started & Hc1 & Hs).
  destruct (serve_steps toUpperCase parseInt env tr requests w1)
    as (rs & w' & during & Hrs & Hlen & _ & Hc & Hl & Hn).
  exists rs, w', started, during.
  rewrite Hc, Hc1, <- app_assoc. auto 10.
Qed.

End ServerCoverage.

(* ------------------------------------------------------------------------- *)
(** ** More about the approval handler *)

Module ApprovalCoverage.
Import McpServer ApprovalHandler Vocabulary Samples Coverage.

Section Skill.

Variable toUpperCase : jsstring -> jsstring.
Variable parseInt : jsstring -> value.
Variable env : Env.
Variable transporter : option SmtpOptions.

Local Abbreviation call_mcp := (call_mcp toUpperCase parseInt env transporter).
Local Abbreviation execute := (execute toUpperCase parseInt env transporter).
Local Abbreviation handle_task := (handle_task toUpperCase parseInt env transporter).
Local Abbreviation scan_files := (scan_files toUpperCase parseInt env transporter).
Local Abbreviation scan := (scan toUpperCase parseInt env transporter).

Lemma kept_refl t : kept t t.
Proof. unfold kept. repeat split; auto. lia. Qed.

Lemma handle_task_kept t e :
  in_Pending_Approval t = true -> kept t (fst (handle_task t e)).
Proof.
  intros Hin.
  assert (Hf : folder t = Pending_Approval).
  { unfold in_Pending_Approval in Hin. destruct (folder t); congruence. }
  unfold ApprovalHandler.handle_task, ApprovalHandler.handle_approved.
  destruct (classify t) eqn:Hc; try apply kept_refl;
    assert (Hrest : at_rest t = false)
      by (unfold at_rest; rewrite Hin, Hc; reflexivity).
  - destruct (mcp_action t) as [actions|] eqn:Hact; [|apply kept_refl].
    destruct (execute actions (details t) e) as [[results|tool detail] e1];
      unfold kept; cbn; rewrite ?Hact, ?Hf; repeat split; auto; try lia;
      intros Hr; rewrite Hrest in Hr; discriminate Hr.
  - unfold kept; cbn. repeat split; auto; try lia.
    intros Hr; rewrite Hrest in Hr; discriminate Hr.
Qed.

Lemma scan_files_kept ts :
  forall e, Forall2 kept ts (fst (scan_files ts e)).
Proof.
  induction ts as [|t ts IH]; intros e; [constructor|].
  cbn [ApprovalHandler.scan_files].
  destruct (in_Pending_Approval t) eqn:Hin.
  - pose proof (handle_task_kept t e Hin) as Hk.
    destruct (handle_task t e) as [t' e1]. cbn [fst] in Hk.
    specialize (IH e1). destruct (scan_files ts e1) as [ts' e2].
    constructor; assumption.
  - specialize (IH e). destruct (scan_files ts e) as [ts' e2].
    constructor; [apply kept_refl | assumption].
Qed.

(** A scan keeps the files: as many as before, in the same order, each with
    its name, its actions and its payload; no retry count goes down; a file
    stays in its folder or moves to [/Done/]; and a file at rest (outside
    [/Pending_Approval/], or neither approved nor rejected) is not
    changed. *)
Theorem scan_keeps_the_files :
  forall (v : Vault), Forall2 kept (tasks v) (tasks (scan v)).
Proof.
  intros v. unfold ApprovalHandler.scan.
  destruct (existsb in_Pending_Approval (tasks v)).
  - pose proof (scan_files_kept (tasks v) (effects v)) as H.
    destruct (scan_files (tasks v) (effects v)) as [ts e]. exact H.
  - cbn [tasks]. induction (tasks v); constructor; [apply kept_refl | assumption].
Qed.

(** *** Files nobody approved *)

Lemma handle_task_unapproved t e :
  approved t = false ->
  approved (fst (handle_task t e)) = false
  /\ mcp_calls (snd (handle_task t e)) = mcp_calls e
  /\ world (snd (handle_task t e)) = world e.
Proof.
  unfold ApprovalHandler.handle_task, classify. intros Happ. rewrite Happ.
  destruct (is_rejected (status t)); [repeat split|].
  destruct (is_pending_approval (status t)); repeat split; assumption.
Qed.

Lemma scan_files_unapproved ts :
  forall e,
    (forall t, In t ts -> approved t = false) ->
    (forall t, In t (fst (scan_files ts e)) -> approved t = false)
    /\ mcp_calls (snd (scan_files ts e)) = mcp_calls e
    /\ world (snd (scan_files ts e)) = world e.
Proof.
  induction ts as [|t ts IH]; intros e Hall; [cbn; tauto|].
  cbn [ApprovalHandler.scan_files].
  assert (Ht : approved t = false) by (apply Hall; now left).
  assert (Hstep :
    let r := if in_Pending_Approval t then handle_task t e else (t, e) in
    approved (fst r) = false /\ mcp_calls (snd r) = mcp_calls e
    /\ world (snd r) = world e).
  { destruct (in_Pending_Approval t); [now apply handle_task_unapproved|].
    cbn. auto. }
  cbn zeta in Hstep.
  destruct (if in_Pending_Approval t then handle_task t e else (t, e))
    as [t' e1].
  cbn [fst snd] in Hstep. destruct Hstep as (Ha & Hc & Hw).
  destruct (IH e1) as (IHa & IHc & IHw); [intros x Hx; apply Hall; now right|].
  destruct (scan_files ts e1) as [ts' e2]. cbn [fst snd] in *.
  split; [|split; congruence].
  intros x [<- | Hx]; [assumption | now apply IHa].
Qed.

Lemma scan_unapproved v :
  (forall t, In t (tasks v) -> approved t = false) ->
  (forall t, In t (tasks (scan v)) -> approved t = false)
  /\ mcp_calls (effects (scan v)) = mcp_calls (effects v)
  /\ world (effects (scan v)) = world (effects v).
Proof.
  intros Hall. unfold ApprovalHandler.scan.
  destruct (existsb in_Pending_Approval (tasks v)).
  - pose proof (scan_files_unapproved (tasks v) (effects v) Hall) as H.
    destruct (scan_files (tasks v) (effects v)) as [ts e]. exact H.
  - cbn. auto.
Qed.

(** While no file says [approved: true], scans call no tool, however many
    are run: the tool calls and the record of external calls stay as they
    were, and no scan turns a file into an approved one. *)
Theorem unapproved_vault_is_never_executed :
  forall (n : nat) (v : Vault),
    (forall t, In t (tasks v) -> approved t = false) ->
    mcp_calls (effects (scans scan n v)) = mcp_calls (effects v)
    /\ world (effects (scans scan n v)) = world (effects v)
    /\ (forall t, In t (tasks (scans scan n v)) -> approved t = false).
Proof.
  induction n as [|n IH]; intros v Hall; [cbn; auto|].
  cbn [scans].
  destruct (scan_unapproved v Hall) as (Ha & Hc & Hw).
  destruct (IH (scan v) Ha) as (IHc & IHw & IHa).
  repeat split; [congruence | congruence | assumption].
Qed.

(** *** What a scan leaves behind *)

Lemma handle_task_leaves t e :
  in_Pending_Approval t = true ->
  at_rest (fst (handle_task t e)) = true \/ parked (fst (handle_task t e)).
Proof.
  intros Hin.
  unfold ApprovalHandler.handle_task, ApprovalHandler.handle_approved.
  destruct (classify t) eqn:Hc.
  - assert (Happ : approved t = true).
    { unfold classify in Hc. destruct (approved t); [reflexivity|].
      destruct (is_rejected (status t)); [discriminate|].
      destruct (is_pending_approval (status t)); discriminate. }
    destruct (mcp_action t) as [actions|] eqn:Hact.
    + destruct (execute actions (details t) e) as [[results|tool detail] e1].
      * left. reflexivity.
      * right. unfold parked. cbn. auto.
    + right. unfold parked. cbn [fst]. auto.
  - left. reflexivity.
  - left. cbn [fst]. unfold at_rest. rewrite Hc. apply orb_true_r.
  - left. cbn [fst]. unfold at_rest. rewrite Hc. apply orb_true_r.
Qed.

Lemma scan_files_leaves ts :
  forall e t',
    In t' (fst (scan_files ts e)) -> at_rest t' = true \/ parked t'.
Proof.
  induction ts as [|t ts IH]; intros e t'; [intros []|].
  cbn [ApprovalHandler.scan_files].
  destruct (in_Pending_Approval t) eqn:Hin.
  - pose proof (handle_task_leaves t e Hin) as Hl.
    destruct (handle_task t e) as [t1 e1]. cbn [fst] in Hl.
    specialize (IH e1 t'). destruct (scan_files ts e1) as [ts' e2].
    cbn [fst] in *. intros [<- | H]; auto.
  - specialize (IH e t'). destruct (scan_files ts e) as [ts' e2].
    cbn [fst] in *. intros [<- | H]; auto.
    left. unfold at_rest. rewrite Hin. reflexivity.
Qed.

(** After a scan every file is at rest, or it is an approved file still in
    [/Pending_Approval/] that names no action or whose execution failed. *)
Theorem scan_leaves_rest_or_parked :
  forall (v : Vault) (t' : Task),
    In t' (tasks (scan v)) ->
    at_rest t' = true \/ parked t'.
Proof.
  intros v t'. unfold ApprovalHandler.scan.
  destruct (existsb in_Pending_Approval (tasks v)) eqn:Hany.
  - pose proof (scan_files_leaves (tasks v) (effects v) t') as H.
    destruct (scan_files (tasks v) (effects v)) as [ts e]. exact H.
  - cbn [tasks]. intros Hin. left. unfold at_rest.
    assert (H : in_Pending_Approval t' = false).
    { destruct (in_Pending_Approval t') eqn:E; [|reflexivity].
      assert (Hex : existsb in_Pending_Approval (tasks v) = true)
        by (apply existsb_exists; eauto).
      congruence. }
    rewrite H. reflexivity.
Qed.

(** *** Completed files *)

Lemma execute_results actions args :
  forall e results,
    fst (execute actions args e) = Succeeded results ->
    length results = length actions.
Proof.
  induction actions as [|tool rest IH]; intros e results; cbn [ApprovalHandler.execute].
  - intros H; injection H as <-. reflexivity.
  - destruct (call_mcp tool args e) as [r e1].
    destruct (failure r); [discriminate|].
    specialize (IH (log (MCP_Action tool (result_of r)) e1)).
    destruct (execute rest args (log (MCP_Action tool (result_of r)) e1))
      as [[results'|t d] e2]; cbn [fst] in *; [|discriminate].
    intros H; injection H as <-. cbn [length]. f_equal. now apply IH.
Qed.

(** An approved file whose actions all succeed is filed under [/Done/] as
    completed, stamped with the time, still marked approved and as having
    needed approval, and its [execution_result] holds one result per
    action. *)
Theorem completed_file_holds_one_result_per_action :
  forall (t : Task) (e : Effects) (actions : list jsstring)
         (results : list value),
    approved t = true ->
    mcp_action t = Some actions ->
    fst (execute actions (details t) e) = Succeeded results ->
    folder (fst (handle_task t e)) = Done
    /\ status (fst (handle_task t e)) = completed
    /\ execution_result (fst (handle_task t e)) = Some (Succeeded results)
    /\ length results = length actions
    /\ approved (fst (handle_task t e)) = true
    /\ approval_needed (fst (handle_task t e)) = true
    /\ completed_at (fst (handle_task t e)) <> None
    /\ retry_count (fst (handle_task t e)) = retry_count t.
Proof.
  intros t e actions results Happ Hact Hok.
  pose proof (execute_results actions (details t) e results Hok) as Hlen.
  unfold ApprovalHandler.handle_task, classify, ApprovalHandler.handle_approved.
  rewrite Happ, Hact.
  destruct (execute actions (details t) e) as [o e1]. cbn [fst] in Hok. subst o.
  cbn. repeat split; auto. discriminate.
Qed.

(** *** The log and the calls only grow *)

Lemma grows_refl e : grows e e.
Proof.
  exists [], [], []. rewrite !app_nil_r. cbn. repeat split; lia.
Qed.

Lemma grows_trans e1 e2 e3 : grows e1 e2 -> grows e2 e3 -> grows e1 e3.
Proof.
  intros (r1 & q1 & a1 & Hl1 & Hm1 & Hc1 & Ho1 & Hn1 & Hf1)
         (r2 & q2 & a2 & Hl2 & Hm2 & Hc2 & Ho2 & Hn2 & Hf2).
  exists (r2 ++ r1), (q1 ++ q2), (a1 ++ a2).
  rewrite Hl2, Hl1, Hm2, Hm1, Hc2, Hc1, Ho2, Ho1, !app_assoc, !length_app,
    forallb_app, Hf1, Hf2.
  repeat split; lia.
Qed.

Lemma grows_log entry e : grows e (log entry e).
Proof.
  exists [entry], [], []. rewrite !app_nil_r. cbn. repeat split; lia.
Qed.

Lemma call_mcp_grows tool args e : grows e (snd (call_mcp tool args e)).
Proof.
  unfold ApprovalHandler.call_mcp.
  destruct (ServerCoverage.callTool_step toUpperCase parseInt env transporter
              (request_for tool args) (world e))
    as (res & w' & added & Hr & Ho & Hc & Hl & Hn & _).
  rewrite Hr. cbn [snd].
  exists [], [request_for tool args], added. cbn. repeat split; auto.
Qed.

Lemma execute_grows actions args :
  forall e, grows e (snd (execute actions args e)).
Proof.
  induction actions as [|tool rest IH]; intros e; [apply grows_refl|].
  cbn [ApprovalHandler.execute].
  pose proof (call_mcp_grows tool args e) as Hcall.
  destruct (call_mcp tool args e) as [r e1]. cbn [snd] in Hcall.
  destruct (failure r); [exact Hcall|].
  specialize (IH (log (MCP_Action tool (result_of r)) e1)).
  destruct (execute rest args (log (MCP_Action tool (result_of r)) e1))
    as [[results|t d] e2]; cbn [snd] in *;
    (eapply grows_trans; [exact Hcall|]);
    (eapply grows_trans; [apply grows_log | exact IH]).
Qed.

Lemma handle_task_grows t e : grows e (snd (handle_task t e)).
Proof.
  unfold ApprovalHandler.handle_task, ApprovalHandler.handle_approved.
  destruct (classify t); try apply grows_refl.
  - destruct (mcp_action t) as [actions|]; [|apply grows_log].
    pose proof (execute_grows actions (details t) e) as H.
    destruct (execute actions (details t) e) as [[results|tool detail] e1];
      cbn [snd file_outcome] in *;
      (eapply grows_trans; [exact H | apply grows_log]).
  - apply grows_log.
Qed.

Lemma scan_files_grows ts : forall e, grows e (snd (scan_files ts e)).
Proof.
  induction ts as [|t ts IH]; intros e; [apply grows_refl|].
  cbn [ApprovalHandler.scan_files].
  assert (H : grows e (snd (if in_Pending_Approval t
                            then handle_task t e else (t, e)))).
  { destruct (in_Pending_Approval t);
      [apply handle_task_grows | apply grows_refl]. }
  destruct (if in_Pending_Approval t then handle_task t e else (t, e))
    as [t' e1].
  specialize (IH e1). destruct (scan_files ts e1) as [ts' e2].
  cbn [snd] in *. eapply grows_trans; eassumption.
Qed.

(** A scan never takes anything back: the rows of the system log stay, with
    new rows on top; the tool calls made so far stay, with new ones after
    them; and each new tool call comes with at most one external call,
    never the creation of a test account. *)
Theorem scan_only_adds_to_the_records :
  forall (v : Vault), grows (effects v) (effects (scan v)).
Proof.
  intros v. unfold ApprovalHandler.scan.
  destruct (existsb in_Pending_Approval (tasks v)).
  - pose proof (scan_files_grows (tasks v) (effects v)) as H.
    destruct (scan_files (tasks v) (effects v)) as [ts e]. exact H.
  - apply grows_log.
Qed.

(** *** Failed executions *)

(** When an action of an approved file fails, the scan stops there: the
    actions before it and the failed one have been called, in order, and
    the ones after it have not.  The file stays in [/Pending_Approval/]
    with [status: execution_failed], the error detail as its
    [execution_result], one more retry, and [approved] still true. *)
Theorem failed_execution_parks_the_file :
  forall (t : Task) (e : Effects) (actions : list jsstring)
         (tool : jsstring) (detail : value),
    approved t = true ->
    mcp_action t = Some actions ->
    fst (execute actions (details t) e) = Failed tool detail ->
    folder (fst (handle_task t e)) = Pending_Approval
    /\ status (fst (handle_task t e)) = execution_failed
    /\ execution_result (fst (handle_task t e)) = Some (Failed tool detail)
    /\ retry_count (fst (handle_task t e)) = (retry_count t + 1)%N
    /\ approved (fst (handle_task t e)) = true
    /\ exists done rest,
         actions = done ++ tool :: rest
         /\ mcp_calls (snd (handle_task t e))
            = mcp_calls e
              ++ map (fun a => request_for a (details t)) (done ++ [tool]).
Proof.
  intros t e actions tool detail.
  exact (ApprovalProperties.failed_execution_is_parked
           toUpperCase parseInt env transporter t e actions tool detail).
Qed.

End Skill.

End ApprovalCoverage.

(* ------------------------------------------------------------------------- *)
(** ** The action logger *)

Module LoggerProperties.
Import ActionLogger Coverage.

Lemma firstn_app_firstn {A} n (a b : list A) :
  firstn n (a ++ firstn n b) = firstn n (a ++ b).
Proof.
  rewrite !firstn_app, firstn_firstn. do 2 f_equal. lia.
Qed.

Lemma filter_firstn_all {A} (p : A -> bool) n l :
  forallb p l = true -> filter p (firstn n l) = firstn n l.
Proof.
  revert n. induction l as [|x l IH]; intros [|n] H; try reflexivity.
  cbn in H |- *. apply andb_true_iff in H as [Hx Hl].
  rewrite Hx. f_equal. now apply IH.
Qed.

Lemma In_firstn {A} (x : A) n l : In x (firstn n l) -> In x l.
Proof.
  revert n. induction l as [|y l IH]; intros [|n]; cbn; try tauto.
  intros [H | H]; [now left | right; now apply (IH n)].
Qed.

Lemma forallb_filter {A} (p : A -> bool) l : forallb p (filter p l) = true.
Proof.
  induction l as [|x l IH]; [reflexivity|].
  cbn. destruct (p x) eqn:Hx; [cbn; now rewrite Hx | exact IH].
Qed.

(** One logged call: its row is the first of Recent Actions, the table has
    at most 10 rows, every other row was there before and is not the
    placeholder, and the system log has the call's row on top of all the
    rows it had. *)
Theorem logged_call_tops_the_table :
  forall (c : Captured) (b : Books),
    hd_error (Recent_Actions (log_action c b)) = Some (format_row c)
    /\ (length (Recent_Actions (log_action c b)) <= 10)%nat
    /\ (forall r, In r (tl (Recent_Actions (log_action c b))) ->
                  In r (Recent_Actions b) /\ is_placeholder r = false)
    /\ Activity_Log (log_action c b) = log_row c :: Activity_Log b.
Proof.
  intros c b. unfold log_action; cbn [Recent_Actions Activity_Log].
  split; [reflexivity|]. split; [apply firstn_le_length|].
  split; [|reflexivity].
  intros r Hin. rewrite (firstn_cons 9) in Hin. cbn [tl] in Hin.
  apply In_firstn in Hin.
  apply filter_In in Hin as [Hin Hp]. split; [assumption|].
  now apply negb_true_iff in Hp.
Qed.

Lemma log_all_recent cs :
  forall c b,
    Forall (fun c => is_placeholder (format_row c) = false) (c :: cs) ->
    Recent_Actions (log_all (c :: cs) b)
    = firstn 10 (map format_row (rev (c :: cs))
                 ++ filter (fun r => negb (is_placeholder r)) (Recent_Actions b)).
Proof.
  induction cs as [|c' cs IH]; intros c b Hall; [reflexivity|].
  change (log_all (c :: c' :: cs) b) with (log_all (c' :: cs) (log_action c b)).
  inversion Hall as [|? ? Hc Hrest]; subst.
  rewrite IH by assumption.
  unfold log_action at 1; cbn [Recent_Actions].
  rewrite filter_firstn_all.
  - rewrite firstn_app_firstn.
    change (rev (c :: c' :: cs)) with (rev (c' :: cs) ++ [c]).
    rewrite map_app, <- app_assoc. reflexivity.
  - cbn [forallb]. rewrite Hc. cbn. apply forallb_filter.
Qed.

Lemma log_all_log cs :
  forall b,
    Activity_Log (log_all cs b) = map log_row (rev cs) ++ Activity_Log b.
Proof.
  induction cs as [|c cs IH]; intros b; [reflexivity|].
  change (log_all (c :: cs) b) with (log_all cs (log_action c b)).
  rewrite IH. cbn [rev]. rewrite map_app, <- app_assoc. reflexivity.
Qed.

(** Starting from the placeholder table, after one or more calls are logged
    the dashboard shows the 10 most recent of them, newest first, and the
    system log holds all of them, newest first, above what it held.  The
    timestamps are taken not to read as the placeholder text. *)
Theorem dashboard_shows_the_ten_most_recent :
  forall (cs : list Captured) (b : Books),
    Recent_Actions b = [placeholder] ->
    cs <> [] ->
    Forall (fun c => is_placeholder (format_row c) = false) cs ->
    Recent_Actions (log_all cs b) = firstn 10 (map format_row (rev cs))
    /\ Activity_Log (log_all cs b) = map log_row (rev cs) ++ Activity_Log b.
Proof.
  intros cs b Hb Hne Hall. split; [|apply log_all_log].
  destruct cs as [|c cs]; [now contradiction Hne|].
  rewrite log_all_recent by assumption.
  rewrite Hb. cbn [filter is_placeholder placeholder].
  replace (negb (str_eqb (lit "_No recent actions_") (lit "_No recent actions_")))
    with false by (vm_compute; reflexivity).
  now rewrite app_nil_r.
Qed.

End LoggerProperties.

(* ------------------------------------------------------------------------- *)
(** ** The test script *)

Module TestEmailProperties.
Import McpServer TestEmail Coverage.

Section Script.

Variable parseInt : jsstring -> value.
Variable toISOString : N -> jsstring.
Variable env : Env.

Local Abbreviation testEmail := (testEmail parseInt toISOString env).

Lemma testEmail_calls :
  forall (w : World),
    exists made,
      calls (snd (testEmail w)) = calls w ++ made
      /\ match fst (testEmail w) with
         | Completed =>
             exists t m,
               made = before_verify env ++ [Verify t; SendMail t m]
               /\ get "to" m = VStr (lit "test@example.com")
               /\ (hasConfig env = true -> t = configured parseInt env)
         | Exit code =>
             code = 1%N
             /\ (made = [CreateTestAccount] /\ hasConfig env = false
                 \/ (exists t, made = before_verify env ++ [Verify t])
                 \/ (exists t m,
                       made = before_verify env ++ [Verify t; SendMail t m]))
         end.
Proof.
  intros w. unfold TestEmail.testEmail, setUp, before_verify.
  destruct (hasConfig env) eqn:Hcfg.
  - unfold external. cbn [calls outside].
    destruct (verify (outside w) (length (calls w)) (configured parseInt env)).
    + match goal with |- context [sendMail ?o ?n ?t ?m] =>
        destruct (sendMail o n t m) end; cbn [fst snd calls];
        eexists; (split; [rewrite <- app_assoc; reflexivity|]).
      * do 2 eexists. repeat split.
      * split; [reflexivity|]. right; right. do 2 eexists. reflexivity.
    + cbn [fst snd calls]. eexists. split; [reflexivity|].
      split; [reflexivity|]. right; left. eexists. reflexivity.
  - unfold external. cbn [calls outside].
    destruct (createTestAccount (outside w) (length (calls w))) as [account|].
    + cbn [calls outside].
      match goal with |- context [verify ?o ?n ?t] =>
        destruct (verify o n t) end.
      * match goal with |- context [sendMail ?o ?n ?t ?m] =>
          destruct (sendMail o n t m) end; cbn [fst snd calls];
          eexists; (split; [rewrite <- !app_assoc; reflexivity|]).
        -- do 2 eexists. repeat split. discriminate.
        -- split; [reflexivity|]. right; right. do 2 eexists. reflexivity.
      * cbn [fst snd calls]. eexists.
        split; [rewrite <- app_assoc; reflexivity|].
        split; [reflexivity|]. right; left. eexists. reflexivity.
    + cbn [fst snd calls]. eexists. split; [reflexivity|]. auto.
Qed.

(** The script verifies the connection before it sends, sends one message,
    to [test@example.com], and only after a successful verification.  It
    runs to its end exactly when every call it made went through; otherwise
    it exits with status 1, and then the last call it made is the one the
    outside refused, every call before that one having gone through. *)
Theorem test_script_verifies_then_sends_once :
  forall (w : World),
    exists made,
      calls (snd (testEmail w)) = calls w ++ made
      /\ match fst (testEmail w) with
         | Completed =>
             exists t m,
               made = before_verify env ++ [Verify t; SendMail t m]
               /\ get "to" m = VStr (lit "test@example.com")
               /\ (hasConfig env = true -> t = configured parseInt env)
               /\ all_answered (outside w) (length (calls w)) made = true
         | Exit code =>
             code = 1%N
             /\ (made = [CreateTestAccount] /\ hasConfig env = false
                 \/ (exists t, made = before_verify env ++ [Verify t])
                 \/ (exists t m,
                       made = before_verify env ++ [Verify t; SendMail t m]))
             /\ exists before c,
                  made = before ++ [c]
                  /\ all_answered (outside w) (length (calls w)) before = true
                  /\ refuses (outside w) (length (calls w) + length before) c
                     = true
         end.
Proof.
  intros w. unfold TestEmail.testEmail, setUp, before_verify.
  destruct (hasConfig env) eqn:Hcfg.
  - unfold external. cbn [calls outside].
    destruct (verify (outside w) (length (calls w)) (configured parseInt env))
      eqn:Hv.
    + match goal with |- context [sendMail ?o ?n ?t ?m] =>
        destruct (sendMail o n t m) eqn:Hs end;
        rewrite ?last_length in *; cbn [fst snd calls];
        eexists; (split; [rewrite <- app_assoc; reflexivity|]).
      * do 2 eexists. split; [reflexivity|]. split; [reflexivity|].
        split; [reflexivity|].
        cbn [app all_answered refuses]. rewrite Hv, Hs. reflexivity.
      * split; [reflexivity|].
        split; [right; right; do 2 eexists; reflexivity|].
        eexists [_], _. split; [reflexivity|].
        cbn [all_answered refuses length]. rewrite Hv, Nat.add_1_r, Hs.
        split; reflexivity.
    + cbn [fst snd calls]. eexists. split; [reflexivity|].
      split; [reflexivity|].
      split; [right; left; eexists; reflexivity|].
      exists [], (Verify (configured parseInt env)). split; [reflexivity|].
      cbn [all_answered refuses length]. rewrite Nat.add_0_r, Hv.
      split; reflexivity.
  - unfold external. cbn [calls outside].
    destruct (createTestAccount (outside w) (length (calls w)))
      as [account|] eqn:Ha.
    + cbn [calls outside].
      match goal with |- context [verify ?o ?n ?t] =>
        destruct (verify o n t) eqn:Hv end; rewrite ?last_length in *.
      * match goal with |- context [sendMail ?o ?n ?t ?m] =>
          destruct (sendMail o n t m) eqn:Hs end;
          rewrite ?last_length in *; cbn [fst snd calls];
          eexists; (split; [rewrite <- !app_assoc; reflexivity|]).
        -- do 2 eexists. split; [reflexivity|]. split; [reflexivity|].
           split; [discriminate|].
           cbn [app all_answered refuses]. rewrite Ha, Hv, Hs. reflexivity.
        -- split; [reflexivity|].
           split; [right; right; do 2 eexists; reflexivity|].
           eexists [_; _], _. split; [reflexivity|].
           cbn [all_answered refuses length]. rewrite Ha, Hv.
           replace (length (calls w) + 2) with (S (S (length (calls w))))
             by lia.
           rewrite Hs. split; reflexivity.
      * cbn [fst snd calls]. eexists.
        split; [rewrite <- app_assoc; reflexivity|].
        split; [reflexivity|].
        split; [right; left; eexists; reflexivity|].
        eexists [_], _. split; [reflexivity|].
        cbn [all_answered refuses length]. rewrite Ha, Nat.add_1_r, Hv.
        split; reflexivity.
    + cbn [fst snd calls]. eexists. split; [reflexivity|].
      split; [reflexivity|]. split; [auto|].
      exists [], CreateTestAccount. split; [reflexivity|].
      cbn [all_answered refuses length]. rewrite Nat.add_0_r, Ha.
      split; reflexivity.
Qed.

(** The script wants both a user and a password before it uses the
    configured SMTP server, the MCP server only a user: with a user and no
    password the MCP server starts on the configured transport without any
    external call, while the script asks for a test account first.  And
    when no host is set, the script's configured transport talks to
    [smtp.gmail.com] and the server's to [smtp.ethereal.email]. *)
Theorem script_and_server_choose_differently :
  forall (w : World),
    (falsy (SMTP_USER env) = false ->
     falsy (SMTP_PASS env) = true ->
     initializeTransporter parseInt env w
     = (Normal (Some (SMTP_CONFIG parseInt env)), w)
     /\ exists made,
          calls (snd (testEmail w)) = calls w ++ CreateTestAccount :: made)
    /\ (falsy (SMTP_HOST env) = true ->
        host (configured parseInt env) = lit "smtp.gmail.com"
        /\ host (SMTP_CONFIG parseInt env) = lit "smtp.ethereal.email").
Proof.
  intros w. split.
  - intros Hu Hp. split.
    + unfold initializeTransporter, TEST_MODE, SMTP_CONFIG; cbn [auth_user].
      rewrite ServerProperties.falsy_or_else, Hu, andb_false_r. reflexivity.
    + destruct (testEmail_calls w) as (made & Hc & Hend).
      assert (Hcfg : hasConfig env = false)
        by (unfold hasConfig; rewrite Hp; apply andb_false_r).
      unfold before_verify in Hend. rewrite Hcfg in Hend.
      rewrite Hc. destruct (fst (testEmail w)).
      * destruct Hend as (t & m & -> & _). eexists. reflexivity.
      * destruct Hend as (_ & [[-> _] | [(t & ->) | (t & m & ->)]]);
          eexists; reflexivity.
  - intros Hh. unfold configured, SMTP_CONFIG; cbn [host].
    destruct (SMTP_HOST env) as [[|c s]|]; try discriminate Hh; split; reflexivity.
Qed.

End Script.

End TestEmailProperties.

(* ------------------------------------------------------------------------- *)
(** ** Concrete runs of the further properties *)

Module CoverageRuns.
Import McpServer ApprovalHandler Vocabulary Samples Coverage.
Import ServerCoverage ApprovalCoverage LoggerProperties.

Lemma send_email_hands_over_the_message_witness :
  email_passes html_email_arguments = true
  /\ exists m,
       snd (handleSendEmail digits_parseInt bare_env (Some gmail)
              (Some html_email_arguments) (fresh_world reachable))
       = {| outside := reachable; calls := [SendMail gmail m] |}
       /\ get "from" m = VStr (lit "me@x.org")
       /\ get "html" m = VStr (lit "<p>B</p>")
       /\ has_key "text" m = false.
Proof.
  split; [vm_compute; reflexivity|].
  destruct (send_email_hands_over_the_message digits_parseInt bare_env
              html_email_arguments gmail (fresh_world reachable))
    as (m & Hs & _ & _ & Hf & Hb & Ho & _); [vm_compute; reflexivity|].
  exists m. repeat split; assumption.
Defined.

Lemma send_email_reports_the_transport_witness :
  email_passes email_arguments = true
  /\ exists r,
       fst (handleSendEmail digits_parseInt live_env (Some gmail)
              (Some email_arguments) (fresh_world flaky)) = Normal r
       /\ get "success" r = VBool false
       /\ get "code" r = VStr (lit "ESOCKET").
Proof.
  split; [vm_compute; reflexivity|].
  destruct (send_email_reports_the_transport digits_parseInt live_env
              email_arguments gmail (fresh_world flaky))
    as (r & m & Hr & Hcase); [vm_compute; reflexivity|].
  exists r. split; [now rewrite Hr|].
  change (r = VObj [("success", VBool false);
                    ("error", VStr (message refused));
                    ("code", opt_str (code refused))]) in Hcase.
  rewrite Hcase. split; reflexivity.
Defined.

Lemma blank_content_is_refused_witness :
  content blank_post = Some [32; 10; 9; 160]%N
  /\ blank [32; 10; 9; 160]%N = true
  /\ handlePostLinkedin ascii_toUpperCase bare_env (Some blank_post)
       (fresh_world reachable)
     = (Normal (validation_failure
                  (lit "Missing required parameter: content cannot be empty")),
        fresh_world reachable).
Proof.
  split; [reflexivity|]. split; [reflexivity|].
  apply (blank_content_is_refused ascii_toUpperCase bare_env blank_post
           [32; 10; 9; 160]%N (fresh_world reachable)); reflexivity.
Defined.

Lemma test_mode_post_succeeds_iff_witness :
  LINKEDIN_TEST_MODE bare_env = true
  /\ exists r,
       handlePostLinkedin ascii_toUpperCase bare_env
         (Some (post_arguments (lit "hello") None)) (fresh_world reachable)
       = (Normal r, fresh_world reachable)
       /\ get "success" r = VBool true.
Proof.
  split; [reflexivity|].
  destruct (test_mode_post_succeeds_iff ascii_toUpperCase bare_env
              (post_arguments (lit "hello") None) (fresh_world reachable)
              eq_refl) as (r & Hr & Hiff).
  exists r. split; [exact Hr|]. apply Hiff. split.
  - exists (lit "hello"). split; [reflexivity|].
    split; [reflexivity | vm_compute; discriminate].
  - vm_compute. reflexivity.
Defined.

Lemma test_mode_preview_is_cut_at_200_witness :
  LINKEDIN_TEST_MODE bare_env = true
  /\ content_passes long_preview_post = true
  /\ exists r shown,
       handlePostLinkedin ascii_toUpperCase bare_env (Some long_preview_post)
         (fresh_world reachable) = (Normal r, fresh_world reachable)
       /\ get "content" r = VStr shown
       /\ shown = repeat 120%N 200 ++ lit "..."
       /\ get "characterCount" r = VNum 250.
Proof.
  split; [reflexivity|]. split; [vm_compute; reflexivity|].
  destruct (test_mode_preview_is_cut_at_200 ascii_toUpperCase bare_env
              long_preview_post (fresh_world reachable))
    as (r & shown & id & Hr & Hc & _ & _ & Hbig & Hn & _);
    [reflexivity | vm_compute; reflexivity | vm_compute; reflexivity |].
  exists r, shown. split; [exact Hr|]. split; [exact Hc|].
  split; [|exact Hn]. rewrite Hbig; [reflexivity | vm_compute; reflexivity].
Defined.

Lemma live_post_request_witness :
  LINKEDIN_TEST_MODE live_env = false
  /\ content_passes connections_post = true
  /\ exists init,
       snd (handlePostLinkedin ascii_toUpperCase live_env
              (Some connections_post) (fresh_world reachable))
       = {| outside := reachable; calls := [Fetch ugcPosts init] |}
       /\ get "Authorization" (get "headers" init) = VStr (lit "Bearer token")
       /\ get "com.linkedin.ugc.MemberNetworkVisibility"
            (get "visibility" (get "body" init))
          = VStr (lit "CONNECTIONS").
Proof.
  split; [reflexivity|]. split; [vm_compute; reflexivity|].
  destruct (live_post_request ascii_toUpperCase live_env connections_post
              (fresh_world reachable))
    as (init & Hs & _ & Ha & _ & _ & _ & _ & Hv);
    [reflexivity | vm_compute; reflexivity | vm_compute; reflexivity |].
  exists init. split; [exact Hs|]. split; [exact Ha | exact Hv].
Defined.

Lemma live_post_outcomes_witness :
  LINKEDIN_TEST_MODE live_env = false
  /\ content_passes connections_post = true
  /\ exists r,
       fst (handlePostLinkedin ascii_toUpperCase live_env
              (Some connections_post) (fresh_world reachable)) = Normal r
       /\ get "postId" r = VStr (lit "urn:li:share:7")
       /\ get "postUrl" r
          = VStr (lit "https://www.linkedin.com/feed/update/urn:li:share:7").
Proof.
  split; [reflexivity|]. split; [vm_compute; reflexivity|].
  destruct (live_post_outcomes ascii_toUpperCase live_env connections_post
              (fresh_world reachable))
    as (r & init & Hr & Hcase);
    [reflexivity | vm_compute; reflexivity | vm_compute; reflexivity |].
  exists r. split; [exact Hr|].
  cbn [fetch reachable outside fresh_world ok json_id] in Hcase.
  destruct Hcase as (_ & Hid & Hurl). split; [exact Hid | exact Hurl].
Defined.

Lemma unapproved_vault_is_never_executed_witness :
  (forall t, In t (tasks waiting_vault) -> approved t = false)
  /\ mcp_calls (effects (scans sample_scan 3 waiting_vault)) = []
  /\ calls (world (effects (scans sample_scan 3 waiting_vault))) = [].
Proof.
  assert (H : forall t, In t (tasks waiting_vault) -> approved t = false).
  { intros t [<- | []]. reflexivity. }
  split; [exact H|].
  destruct (unapproved_vault_is_never_executed ascii_toUpperCase
              digits_parseInt live_env (Some gmail) 3 waiting_vault H)
    as (Hc & Hw & _).
  split; [exact Hc | exact (f_equal calls Hw)].
Defined.

Lemma scan_leaves_rest_or_parked_witness :
  exists t',
    In t' (tasks (sample_scan flaky_vault))
    /\ status t' = execution_failed
    /\ (at_rest t' = true \/ parked t').
Proof.
  pose (t' := nth 0 (tasks (sample_scan flaky_vault)) send_email_task).
  assert (Hin : In t' (tasks (sample_scan flaky_vault)))
    by (left; vm_compute; reflexivity).
  exists t'. split; [exact Hin|]. split; [vm_compute; reflexivity|].
  exact (scan_leaves_rest_or_parked ascii_toUpperCase digits_parseInt
           live_env (Some gmail) flaky_vault t' Hin).
Defined.

Lemma completed_file_holds_one_result_per_action_witness :
  exists results,
    approved send_email_task = true
    /\ mcp_action send_email_task = Some [lit "send_email"]
    /\ fst (sample_execute [lit "send_email"] email_arguments
              (fresh_effects reachable)) = Succeeded results
    /\ folder (fst (sample_handle_task send_email_task
                      (fresh_effects reachable))) = Done
    /\ status (fst (sample_handle_task send_email_task
                      (fresh_effects reachable))) = completed
    /\ execution_result (fst (sample_handle_task send_email_task
                                (fresh_effects reachable)))
       = Some (Succeeded results)
    /\ length results = 1.
Proof.
  pose (results :=
          match fst (sample_execute [lit "send_email"] email_arguments
                       (fresh_effects reachable)) with
          | Succeeded r => r
          | Failed _ _ => []
          end).
  exists results.
  assert (H : fst (sample_execute [lit "send_email"] email_arguments
                     (fresh_effects reachable)) = Succeeded results)
    by (vm_compute; reflexivity).
  split; [reflexivity|]. split; [reflexivity|]. split; [exact H|].
  destruct (completed_file_holds_one_result_per_action ascii_toUpperCase
              digits_parseInt live_env (Some gmail) send_email_task
              (fresh_effects reachable) [lit "send_email"] results
              eq_refl eq_refl H) as (Hf & Hs & Hr & Hl & _).
  split; [exact Hf|]. split; [exact Hs|]. split; [exact Hr | exact Hl].
Defined.

Lemma failed_execution_parks_the_file_witness :
  approved bad_send_email_task = true
  /\ mcp_action bad_send_email_task
     = Some [lit "send_email"; lit "post_linkedin"]
  /\ fst (sample_execute [lit "send_email"; lit "post_linkedin"]
            bad_email_arguments (fresh_effects reachable))
     = Failed (lit "send_email")
         (VStr (lit "Invalid email address format: not-an-email"))
  /\ status (fst (sample_handle_task bad_send_email_task
                    (fresh_effects reachable))) = execution_failed
  /\ retry_count (fst (sample_handle_task bad_send_email_task
                         (fresh_effects reachable))) = 1%N
  /\ folder (fst (sample_handle_task bad_send_email_task
                    (fresh_effects reachable))) = Pending_Approval.
Proof.
  assert (H : fst (sample_execute [lit "send_email"; lit "post_linkedin"]
                     bad_email_arguments (fresh_effects reachable))
              = Failed (lit "send_email")
                  (VStr (lit "Invalid email address format: not-an-email")))
    by (vm_compute; reflexivity).
  split; [reflexivity|]. split; [reflexivity|]. split; [exact H|].
  destruct (failed_execution_parks_the_file ascii_toUpperCase
              digits_parseInt live_env (Some gmail) bad_send_email_task
              (fresh_effects reachable)
              [lit "send_email"; lit "post_linkedin"] (lit "send_email")
              (VStr (lit "Invalid email address format: not-an-email"))
              eq_refl eq_refl H) as (Hf & Hs & _ & Hr & _).
  split; [exact Hs|]. split; [exact Hr | exact Hf].
Defined.

Lemma dashboard_shows_the_ten_most_recent_witness :
  ActionLogger.Recent_Actions fresh_books = [ActionLogger.placeholder]
  /\ twelve_calls <> []
  /\ length (ActionLogger.Recent_Actions
               (ActionLogger.log_all twelve_calls fresh_books)) = 10
  /\ hd_error (ActionLogger.Recent_Actions
                 (ActionLogger.log_all twelve_calls fresh_books))
     = Some (ActionLogger.format_row (sample_capture 12))
  /\ length (ActionLogger.Activity_Log
               (ActionLogger.log_all twelve_calls fresh_books)) = 12.
Proof.
  split; [reflexivity|]. split; [discriminate|].
  destruct (dashboard_shows_the_ten_most_recent twelve_calls fresh_books)
    as (Hr & Hl); [reflexivity | discriminate | |].
  - unfold twelve_calls. cbn [seq map]. repeat constructor.
  - rewrite Hr, Hl. repeat split.
Defined.

End CoverageRuns.
